(** * Voice processing pipeline (voice-agent-demo, voice-processor service)

    A shallow embedding of
      - [src/voice-agent-demo/src/types/shared.ts]   (types, [PipelineError]),
      - [src/voice-agent-demo/src/voice-processor/model.ts]
        ([validateAudioFile], [extractAudioMetadata], [validatePipelineStages]),
      - [src/voice-agent-demo/src/voice-processor/controller.ts]
        ([processVoicePipeline], [handlePipelineError], [generateRequestId]),
      - [src/voice-agent-demo/src/voice-processor/index.ts]
        (the handler of POST /process-voice),
      - [src/git-haiku-demo/src/git-haiku-mcp/model.ts] and [controller.ts]
        ([validateCommits], [generateHaikuPrompt], [formatHaikuResponse],
        [processGitHaiku]),
    followed by the properties of the pipeline that the specification states
    and by further properties read off the code.

    JavaScript strings are sequences of UTF-16 code units, so that [length]
    is [String.prototype.length] and [trim] strips exactly the code units
    ECMAScript calls white space or line terminators.  Values that come
    back from the injected services are plain data ([value]); exceptions and
    promise rejections are the [Throw] case of [completion]; the clock, the
    random source, the call log and the local array [pipelineStages] are
    threaded through a state monad. *)

From Stdlib Require Import String Ascii ZArith NArith List Bool Lia DecimalString.
From Stdlib Require QArith DecimalZ.
Import ListNotations.

Local Open Scope Z_scope.

(* ================================================================= *)
(** ** JavaScript strings *)

Definition jsstring := list N.

(** An ASCII literal as a sequence of code units. *)
Definition js (s : string) : jsstring := map N_of_ascii (list_ascii_of_string s).

Fixpoint str_eqb (a b : jsstring) : bool :=
  match a, b with
  | [], [] => true
  | x :: a', y :: b' => N.eqb x y && str_eqb a' b'
  | _, _ => false
  end.

(** [Array.prototype.includes] on an array of strings. *)
Definition includes (l : list jsstring) (x : jsstring) : bool :=
  existsb (str_eqb x) l.

(** [s.split(sep)] for a separator of one code unit; the result is never
    empty. *)
Fixpoint split (sep : N) (s : jsstring) : list jsstring :=
  match s with
  | [] => [[]]
  | c :: s' =>
      if N.eqb c sep then [] :: split sep s'
      else match split sep s' with
           | [] => [[c]]
           | h :: t => (c :: h) :: t
           end
  end.

(** [Array.prototype.pop]: the last element, [undefined] on an empty array. *)
Definition pop {A} (l : list A) : option A :=
  match rev l with
  | [] => None
  | x :: _ => Some x
  end.

(** [Array.prototype.join]. *)
Fixpoint join (sep : jsstring) (l : list jsstring) : jsstring :=
  match l with
  | [] => []
  | [x] => x
  | x :: rest => x ++ sep ++ join sep rest
  end.

(** ECMAScript WhiteSpace and LineTerminator code units, the ones
    [String.prototype.trim] removes. *)
Definition isWhiteSpace (c : N) : bool :=
  existsb (N.eqb c)
    [9; 10; 11; 12; 13; 32; 160; 5760;
     8192; 8193; 8194; 8195; 8196; 8197; 8198; 8199; 8200; 8201; 8202;
     8232; 8233; 8239; 8287; 12288; 65279]%N.

Fixpoint trimStart (s : jsstring) : jsstring :=
  match s with
  | [] => []
  | c :: s' => if isWhiteSpace c then trimStart s' else s
  end.

Definition trimEnd (s : jsstring) : jsstring := rev (trimStart (rev s)).

Definition trim (s : jsstring) : jsstring := trimEnd (trimStart s).

(** [String.prototype.substr(start, len)] for non-negative arguments. *)
Definition substr (start len : nat) (s : jsstring) : jsstring :=
  firstn len (skipn start s).

(** [Number.prototype.toString()] on an integer (below 1e21 in size, where
    JavaScript prints every digit): the clock readings and HTTP status codes
    the program interpolates into template strings. *)
Definition Number_toString (n : Z) : jsstring :=
  js (NilEmpty.string_of_int (Z.to_int n)).

(** [a || b] on an optional string: [undefined] and the empty string are
    falsy. *)
Definition or_default (a : option jsstring) (b : jsstring) : jsstring :=
  match a with
  | Some (c :: s) => c :: s
  | _ => b
  end.

(* ================================================================= *)
(** ** Plain JavaScript data *)

#[local] Set Warnings "-register-all".

(** What a service hands back: JSON-like data.  Only integer-valued numbers
    are represented; the program tests numbers for truthiness and for
    [> 0] only, where any other number acts as an integer of its sign
    (and NaN as 0).  An object is its list of own properties, looked up
    first match first. *)
Inductive value : Type :=
| VUndefined
| VNull
| VBool (b : bool)
| VNum (n : Z)
| VStr (s : jsstring)
| VArr (items : list value)
| VObj (fields : list (jsstring * value)).

(** ToBoolean. *)
Definition truthy (v : value) : bool :=
  match v with
  | VUndefined | VNull => false
  | VBool b => b
  | VNum n => negb (n =? 0)
  | VStr s => match s with [] => false | _ => true end
  | VArr _ | VObj _ => true
  end.

Fixpoint lookup (k : jsstring) (fields : list (jsstring * value)) : value :=
  match fields with
  | [] => VUndefined
  | (k', v) :: rest => if str_eqb k k' then v else lookup k rest
  end.

(* ================================================================= *)
(** ** shared.ts *)

Inductive PipelineStage : Type :=
| validation | whisper | llama | hume | response_assembly.

Definition stage_name (s : PipelineStage) : jsstring :=
  match s with
  | validation => js "validation"
  | whisper => js "whisper"
  | llama => js "llama"
  | hume => js "hume"
  | response_assembly => js "response-assembly"
  end.

Record PipelineStageResult : Type := {
  sr_stage : PipelineStage;
  sr_success : bool;
  sr_durationMs : Z;
  sr_error : option jsstring
}.

Record AudioProcessingMetadata : Type := {
  originalDuration : option Z;
  transcriptLength : value;
  processingTimeMs : Z;
  md_pipelineStages : list PipelineStageResult
}.

Record ProcessedAudioResult : Type := {
  audioBase64 : value;
  metadata : AudioProcessingMetadata
}.

Record ValidationDetails : Type := {
  fileSize : option Z;
  fileType : option jsstring;
  maxSizeExceeded : option bool;
  unsupportedFormat : option bool
}.

Record ValidationResult : Type := {
  valid : bool;
  vr_error : option jsstring;
  vr_details : option ValidationDetails
}.

Record AudioMetadata : Type := {
  am_size : Z;
  am_type : jsstring;
  am_name : option jsstring;
  am_lastModified : option Z
}.

Record ErrorResponse : Type := {
  er_error : jsstring;
  er_stage : option jsstring;
  er_details : option jsstring;
  er_timestamp : jsstring;
  er_requestId : option jsstring
}.

(** Instances of [Error].  [PipelineError] is the subclass of shared.ts;
    [GenericError] is any other instance, with its [message] and [stack]. *)
Inductive ErrorInstance : Type :=
| GenericError (message : jsstring) (stack : option jsstring)
| PipelineError (message : jsstring) (stage : PipelineStage)
                (details : option jsstring).

(** Anything a [throw] or a rejected promise can carry. *)
Inductive thrown : Type :=
| ThrownError (e : ErrorInstance)
| ThrownValue (v : value).

Definition error_message (e : ErrorInstance) : jsstring :=
  match e with
  | GenericError m _ => m
  | PipelineError m _ _ => m
  end.

(** [error instanceof Error ? error.message : dflt]. *)
Definition message_or {A} (some : jsstring -> A) (dflt : A) (t : thrown) : A :=
  match t with
  | ThrownError e => some (error_message e)
  | ThrownValue _ => dflt
  end.

(** The outcome of evaluating an expression or awaiting a promise. *)
Inductive completion (A : Type) : Type :=
| Normal (a : A)
| Throw (t : thrown).
Arguments Normal {A} a.
Arguments Throw {A} t.

(** A browser [File]: declared metadata, and what [arrayBuffer()] settles
    to. *)
Record File : Type := {
  file_size : Z;
  file_type : jsstring;
  file_name : jsstring;
  file_lastModified : Z;
  file_arrayBuffer : completion (list Z)
}.

(* ================================================================= *)
(** ** The JavaScript engine

    Built-ins whose tables are outside the repository are taken as given:
    theorems hold for every engine, examples run on [demo_engine]. *)

Record Engine : Type := {
  (** [String.prototype.toLowerCase] (Unicode case tables). *)
  toLowerCase : jsstring -> jsstring;
  (** [Date.prototype.toISOString] of a time value in milliseconds. *)
  toISOString : Z -> jsstring;
  (** [v > 0] for a string, array or object [v]: ToPrimitive, then
      StringToNumber; it can throw. *)
  coerce_gt_zero : value -> completion bool;
  (** Message and stack of the TypeError raised when property [key] of [v]
      cannot be read or called. *)
  TypeError_message : value -> jsstring -> jsstring;
  TypeError_stack : value -> jsstring -> option jsstring;
  (** The stack that [new Error(message)] captures. *)
  Error_stack : jsstring -> option jsstring
}.

(** [toLowerCase] on the ASCII letters. *)
Definition ascii_toLowerCase (s : jsstring) : jsstring :=
  map (fun c => if (65 <=? c)%N && (c <=? 90)%N then (c + 32)%N else c) s.

(** A decimal number padded with zeros to [width] digits. *)
Definition pad (width : nat) (n : Z) : jsstring :=
  let digits := Number_toString n in
  repeat 48%N (width - length digits) ++ digits.

(** [toISOString] for the years 0000 to 9999: the civil date of a day
    count, then YYYY-MM-DDTHH:mm:ss.sssZ. *)
Definition iso_toISOString (t : Z) : jsstring :=
  let days := t / 86400000 in
  let ms := t mod 86400000 in
  let z := days + 719468 in
  let era := z / 146097 in
  let doe := z - era * 146097 in
  let yoe := (doe - doe / 1460 + doe / 36524 - doe / 146096) / 365 in
  let doy := doe - (365 * yoe + yoe / 4 - yoe / 100) in
  let mp := (5 * doy + 2) / 153 in
  let d := doy - (153 * mp + 2) / 5 + 1 in
  let m := if mp <? 10 then mp + 3 else mp - 9 in
  let y := yoe + era * 400 + (if m <=? 2 then 1 else 0) in
  pad 4 y ++ js "-" ++ pad 2 m ++ js "-" ++ pad 2 d ++ js "T"
  ++ pad 2 (ms / 3600000) ++ js ":" ++ pad 2 (ms / 60000 mod 60) ++ js ":"
  ++ pad 2 (ms / 1000 mod 60) ++ js "." ++ pad 3 (ms mod 1000) ++ js "Z".

(** An engine to run examples on: ASCII case mapping, V8's wording of
    TypeErrors, no stacks, and strings, arrays and objects compared with 0
    as NaN would be. *)
Definition demo_engine : Engine := {|
  toLowerCase := ascii_toLowerCase;
  toISOString := iso_toISOString;
  coerce_gt_zero := fun _ => Normal false;
  TypeError_message := fun v key =>
    match v with
    | VUndefined => js "Cannot read properties of undefined (reading '" ++ key ++ js "')"
    | VNull => js "Cannot read properties of null (reading '" ++ key ++ js "')"
    | _ => key ++ js " is not a function"
    end;
  TypeError_stack := fun _ _ => None;
  Error_stack := fun _ => None
|}.

(* ================================================================= *)
(** ** model.ts *)

Definition MAX_FILE_SIZE : Z := 25 * 1024 * 1024.

Definition SUPPORTED_MIME_TYPES : list jsstring :=
  [js "audio/wav"; js "audio/mp3"; js "audio/mpeg";
   js "audio/mp4"; js "audio/webm"; js "audio/m4a"; js "audio/mpga"].

Definition SUPPORTED_EXTENSIONS : list jsstring :=
  [js "wav"; js "mp3"; js "m4a"; js "webm"; js "mp4"; js "mpeg"; js "mpga"].

Definition isValidMimeType (file : File) : bool :=
  includes SUPPORTED_MIME_TYPES (file_type file).

Definition fileExtension (E : Engine) (file : File) : option jsstring :=
  pop (split 46%N (toLowerCase E (file_name file))).

(** [fileExtension && SUPPORTED_EXTENSIONS.includes(fileExtension)], as a
    condition. *)
Definition hasValidExtension (E : Engine) (file : File) : bool :=
  match fileExtension E file with
  | None => false
  | Some [] => false
  | Some ext => includes SUPPORTED_EXTENSIONS ext
  end.

Definition validateAudioFile (E : Engine) (file : File) : ValidationResult :=
  if MAX_FILE_SIZE <? file_size file then
    {| valid := false;
       vr_error := Some (js "File size exceeds maximum allowed size of "
                         ++ Number_toString (MAX_FILE_SIZE / 1024 / 1024)
                         ++ js "MB");
       vr_details := Some {| fileSize := Some (file_size file);
                             fileType := Some (file_type file);
                             maxSizeExceeded := Some true;
                             unsupportedFormat := Some false |} |}
  else if negb (isValidMimeType file) && negb (hasValidExtension E file) then
    {| valid := false;
       vr_error := Some (js "Unsupported file format. Supported formats: "
                         ++ join (js ", ") SUPPORTED_EXTENSIONS);
       vr_details := Some {| fileSize := Some (file_size file);
                             fileType := Some (file_type file);
                             maxSizeExceeded := Some false;
                             unsupportedFormat := Some true |} |}
  else
    {| valid := true;
       vr_error := None;
       vr_details := Some {| fileSize := Some (file_size file);
                             fileType := Some (file_type file);
                             maxSizeExceeded := Some false;
                             unsupportedFormat := Some false |} |}.

Definition extractAudioMetadata (file : File) : AudioMetadata :=
  {| am_size := file_size file;
     am_type := file_type file;
     am_name := Some (file_name file);
     am_lastModified := Some (file_lastModified file) |}.

(** [!v || v.trim().length === 0]: on a truthy value that is not a string
    the call of [trim] raises a TypeError. *)
Definition is_blank (E : Engine) (v : value) : completion bool :=
  if negb (truthy v) then Normal true
  else match v with
       | VStr s => Normal (Nat.eqb (length (trim s)) 0)
       | _ => Throw (ThrownError (GenericError (TypeError_message E v (js "trim"))
                                               (TypeError_stack E v (js "trim"))))
       end.

Definition validatePipelineStages (E : Engine) (transcript llmOutput : value)
  : completion bool :=
  match is_blank E transcript with
  | Throw t => Throw t
  | Normal true => Normal false
  | Normal false =>
      match is_blank E llmOutput with
      | Throw t => Throw t
      | Normal true => Normal false
      | Normal false => Normal true
      end
  end.

(* ================================================================= *)
(** ** Property access on plain data *)

Definition engine_TypeError (E : Engine) (v : value) (key : jsstring) : thrown :=
  ThrownError (GenericError (TypeError_message E v key) (TypeError_stack E v key)).

(** [v.key] for the property names the controller reads ([text],
    [choices], [message], [content], [generations], [length], [audio]):
    a TypeError on [undefined] and [null], the own property on an object,
    [length] on arrays and strings, [undefined] otherwise. *)
Definition get_prop (E : Engine) (v : value) (key : jsstring) : completion value :=
  match v with
  | VUndefined | VNull => Throw (engine_TypeError E v key)
  | VObj fields => Normal (lookup key fields)
  | VArr items =>
      if str_eqb key (js "length") then Normal (VNum (Z.of_nat (length items)))
      else Normal VUndefined
  | VStr s =>
      if str_eqb key (js "length") then Normal (VNum (Z.of_nat (length s)))
      else Normal VUndefined
  | VBool _ | VNum _ => Normal VUndefined
  end.

(** [v[0]]. *)
Definition get_index0 (E : Engine) (v : value) : completion value :=
  match v with
  | VUndefined | VNull => Throw (engine_TypeError E v (js "0"))
  | VArr items => Normal (nth 0 items VUndefined)
  | VStr s => Normal (match s with [] => VUndefined | c :: _ => VStr [c] end)
  | VObj fields => Normal (lookup (js "0") fields)
  | VBool _ | VNum _ => Normal VUndefined
  end.

(** [v?.key]. *)
Definition get_prop_opt (E : Engine) (v : value) (key : jsstring) : completion value :=
  match v with
  | VUndefined | VNull => Normal VUndefined
  | _ => get_prop E v key
  end.

(** [v > 0]. *)
Definition gt_zero (E : Engine) (v : value) : completion bool :=
  match v with
  | VUndefined | VNull => Normal false
  | VBool b => Normal b
  | VNum n => Normal (0 <? n)
  | VStr _ | VArr _ | VObj _ => coerce_gt_zero E v
  end.

(* ================================================================= *)
(** ** The services a run talks to *)

(** Argument of [env.AI.run(model, request)]. *)
Inductive AIRequest : Type :=
| WhisperRequest (audio : list Z) (response_format : jsstring)
| LlamaRequest (messages : list (jsstring * value)) (max_tokens : Z)
               (temperature : QArith_base.Q).

(** The [env] argument.  A missing [env.AI] is an [AI_run] that throws. *)
Record Env : Type := {
  AI_run : jsstring -> AIRequest -> completion value;
  HUME_API_KEY : value
}.

(** A fetch [Response]: [ok], [status], and what [text()] and [json()]
    settle to. *)
Record Response : Type := {
  ok : bool;
  status : Z;
  text : completion jsstring;
  json : completion value
}.

(** Second argument of [fetch]; [fi_body] is the value handed to
    [JSON.stringify]. *)
Record FetchInit : Type := {
  fi_method : jsstring;
  fi_headers : list (jsstring * value);
  fi_body : value
}.

(** Globals: the k-th reading of the clock, the k-th
    [Math.random().toString(36)], and [fetch]. *)
Record World : Type := {
  Date_now_at : nat -> Z;
  Math_random_at : nat -> jsstring;
  fetch : jsstring -> FetchInit -> completion Response
}.

Inductive Call : Type :=
| CallArrayBuffer
| CallAI (model : jsstring) (request : AIRequest)
| CallFetch (url : jsstring) (init : FetchInit)
| CallText
| CallJson.

(* ================================================================= *)
(** ** State and exceptions *)

Record State : Type := {
  clock_reads : nat;
  random_draws : nat;
  pipelineStages : list PipelineStageResult;
  calls : list Call
}.

Definition initial_state : State :=
  {| clock_reads := 0; random_draws := 0; pipelineStages := []; calls := [] |}.

Definition M (A : Type) : Type := State -> State * completion A.

Definition ret {A} (a : A) : M A := fun s => (s, Normal a).

Definition throw {A} (t : thrown) : M A := fun s => (s, Throw t).

Definition bind {A B} (m : M A) (k : A -> M B) : M B :=
  fun s => match m s with
           | (s', Normal a) => k a s'
           | (s', Throw t) => (s', Throw t)
           end.

Definition try_catch {A} (body : M A) (handler : thrown -> M A) : M A :=
  fun s => match body s with
           | (s', Normal a) => (s', Normal a)
           | (s', Throw t) => handler t s'
           end.

Definition lift {A} (c : completion A) : M A := fun s => (s, c).

Declare Scope js_scope.
Delimit Scope js_scope with js.
Notation "x <- m ;; k" := (bind m (fun x => k))
  (at level 100, m at next level, right associativity) : js_scope.
Notation "m ;;; k" := (bind m (fun _ => k))
  (at level 100, right associativity) : js_scope.

(** [const pipelineStages = []]. *)
Definition new_pipelineStages : M unit :=
  fun s => ({| clock_reads := clock_reads s; random_draws := random_draws s;
               pipelineStages := []; calls := calls s |}, Normal tt).

(** [pipelineStages.push(r)]. *)
Definition push (r : PipelineStageResult) : M unit :=
  fun s => ({| clock_reads := clock_reads s; random_draws := random_draws s;
               pipelineStages := pipelineStages s ++ [r]; calls := calls s |},
            Normal tt).

(** [await] of a call to the outside: the call is logged, then it settles. *)
Definition await {A} (c : Call) (r : completion A) : M A :=
  fun s => ({| clock_reads := clock_reads s; random_draws := random_draws s;
               pipelineStages := pipelineStages s; calls := calls s ++ [c] |}, r).

Definition Date_now (W : World) : M Z :=
  fun s => ({| clock_reads := S (clock_reads s); random_draws := random_draws s;
               pipelineStages := pipelineStages s; calls := calls s |},
            Normal (Date_now_at W (clock_reads s))).

Definition Math_random_toString36 (W : World) : M jsstring :=
  fun s => ({| clock_reads := clock_reads s; random_draws := S (random_draws s);
               pipelineStages := pipelineStages s; calls := calls s |},
            Normal (Math_random_at W (random_draws s))).

(* ================================================================= *)
(** ** controller.ts *)

Section Controller.

Variable E : Engine.
Variable W : World.

Local Open Scope js_scope.

Definition whisper_model : jsstring := js "whisper-large-v3".
Definition llama_model : jsstring := js "llama-3.3-70b".
Definition hume_url : jsstring := js "https://api.hume.ai/v0/tts".

Definition system_prompt : jsstring :=
  js "You are a helpful assistant that processes user speech input and provides thoughtful responses.".

Definition whisper_request (audioArray : list Z) : AIRequest :=
  WhisperRequest audioArray (js "text").

Definition llama_request (transcript : value) : AIRequest :=
  LlamaRequest [(js "system", VStr system_prompt); (js "user", transcript)]
               1024 (QArith_base.Qmake 7 10).

Definition hume_init (env : Env) (llmOutput : value) : FetchInit :=
  {| fi_method := js "POST";
     fi_headers := [(js "X-Hume-Api-Key", HUME_API_KEY env);
                    (js "Content-Type", VStr (js "application/json"))];
     fi_body := VObj [(js "utterances", VArr [VObj [(js "text", llmOutput)]])] |}.

(** [new Error(message)]. *)
Definition new_Error (message : jsstring) : thrown :=
  ThrownError (GenericError message (Error_stack E message)).

(** What every inner [catch (error)] block does: time the stage, record the
    failure, raise the stage's [PipelineError]. *)
Definition stage_catch (stage : PipelineStage) (message : jsstring)
           (stageStart : Z) (error : thrown) : M value :=
  stageEnd <- Date_now W ;;
  push {| sr_stage := stage; sr_success := false;
          sr_durationMs := stageEnd - stageStart;
          sr_error := Some (message_or (fun m => m) (js "Unknown error") error) |} ;;;
  throw (ThrownError (PipelineError message stage (message_or Some None error))).

(** Body of the [try] of stage 2. *)
Definition whisper_try (env : Env) (audioFile : File) : M value :=
  arrayBuffer <- await CallArrayBuffer (file_arrayBuffer audioFile) ;;
  let audioArray := arrayBuffer in
  whisperResponse <- await (CallAI whisper_model (whisper_request audioArray))
                           (AI_run env whisper_model (whisper_request audioArray)) ;;
  lift (get_prop E whisperResponse (js "text")).

(** [llamaResponse.choices[0].message.content]. *)
Definition first_choice_content (llamaResponse : value) : completion value :=
  match get_prop E llamaResponse (js "choices") with
  | Throw t => Throw t
  | Normal choices =>
      match get_index0 E choices with
      | Throw t => Throw t
      | Normal choice =>
          match get_prop E choice (js "message") with
          | Throw t => Throw t
          | Normal message => get_prop E message (js "content")
          end
      end
  end.

(** Body of the [try] of stage 3. *)
Definition llama_try (env : Env) (transcript : value) : M value :=
  llamaResponse <- await (CallAI llama_model (llama_request transcript))
                         (AI_run env llama_model (llama_request transcript)) ;;
  lift (first_choice_content llamaResponse).

(** [ttsData.generations[0].audio]. *)
Definition first_generation_audio (ttsData : value) : completion value :=
  match get_prop E ttsData (js "generations") with
  | Throw t => Throw t
  | Normal generations =>
      match get_index0 E generations with
      | Throw t => Throw t
      | Normal generation => get_prop E generation (js "audio")
      end
  end.

(** [ttsData.generations && ttsData.generations.length > 0 &&
     ttsData.generations[0]?.audio], as a condition. *)
Definition has_audio (ttsData : value) : completion bool :=
  match get_prop E ttsData (js "generations") with
  | Throw t => Throw t
  | Normal generations =>
      if negb (truthy generations) then Normal false
      else
        match get_prop E generations (js "length") with
        | Throw t => Throw t
        | Normal len =>
            match gt_zero E len with
            | Throw t => Throw t
            | Normal false => Normal false
            | Normal true =>
                match get_index0 E generations with
                | Throw t => Throw t
                | Normal generation =>
                    match get_prop_opt E generation (js "audio") with
                    | Throw t => Throw t
                    | Normal audio => Normal (truthy audio)
                    end
                end
            end
        end
  end.

(** Body of the [try] of stage 4. *)
Definition hume_try (env : Env) (llmOutput : value) : M value :=
  ttsResponse <- await (CallFetch hume_url (hume_init env llmOutput))
                       (fetch W hume_url (hume_init env llmOutput)) ;;
  (if negb (ok ttsResponse) then
     errorText <- await CallText (text ttsResponse) ;;
     throw (new_Error (js "Hume API error: " ++ Number_toString (status ttsResponse)
                       ++ js " - " ++ errorText))
   else ret tt) ;;;
  ttsData <- await CallJson (json ttsResponse) ;;
  audible <- lift (has_audio ttsData) ;;
  if audible then lift (first_generation_audio ttsData)
  else throw (new_Error (js "No audio generated by TTS service")).

(** Body of the outer [try]. *)
Definition pipeline_try (env : Env) (audioFile : File) (startTime : Z)
  : M ProcessedAudioResult :=
  (* Stage 1: Validation *)
  validationStart <- Date_now W ;;
  let validation' := validateAudioFile E audioFile in
  validationEnd <- Date_now W ;;
  push {| sr_stage := validation; sr_success := valid validation';
          sr_durationMs := validationEnd - validationStart;
          sr_error := vr_error validation' |} ;;;
  (if negb (valid validation') then
     throw (ThrownError (PipelineError
              (or_default (vr_error validation') (js "Validation failed"))
              validation None))
   else ret tt) ;;;
  (* Stage 2: Whisper Transcription *)
  whisperStart <- Date_now W ;;
  transcript <- try_catch (whisper_try env audioFile)
                  (stage_catch whisper (js "Whisper transcription failed") whisperStart) ;;
  whisperEnd <- Date_now W ;;
  push {| sr_stage := whisper; sr_success := true;
          sr_durationMs := whisperEnd - whisperStart; sr_error := None |} ;;;
  (* Stage 3: Llama Processing *)
  llamaStart <- Date_now W ;;
  llmOutput <- try_catch (llama_try env transcript)
                 (stage_catch llama (js "LLM processing failed") llamaStart) ;;
  llamaEnd <- Date_now W ;;
  push {| sr_stage := llama; sr_success := true;
          sr_durationMs := llamaEnd - llamaStart; sr_error := None |} ;;;
  (* Validate pipeline stages *)
  outputsValid <- lift (validatePipelineStages E transcript llmOutput) ;;
  (if negb outputsValid then
     push {| sr_stage := response_assembly; sr_success := false;
             sr_durationMs := 0;
             sr_error := Some (js "Invalid pipeline output") |} ;;;
     throw (ThrownError (PipelineError (js "Pipeline validation failed")
                                       response_assembly None))
   else ret tt) ;;;
  (* Stage 4: Hume TTS *)
  humeStart <- Date_now W ;;
  audioBase64' <- try_catch (hume_try env llmOutput)
                    (stage_catch hume (js "Text-to-speech synthesis failed") humeStart) ;;
  humeEnd <- Date_now W ;;
  push {| sr_stage := hume; sr_success := true;
          sr_durationMs := humeEnd - humeStart; sr_error := None |} ;;;
  (* Stage 5: Response Assembly *)
  assemblyStart <- Date_now W ;;
  let metadata' := extractAudioMetadata audioFile in
  assemblyEnd <- Date_now W ;;
  push {| sr_stage := response_assembly; sr_success := true;
          sr_durationMs := assemblyEnd - assemblyStart; sr_error := None |} ;;;
  endTime <- Date_now W ;;
  transcript_length <- lift (get_prop E transcript (js "length")) ;;
  stages <- (fun s => (s, Normal (pipelineStages s))) ;;
  ret {| audioBase64 := audioBase64';
         metadata :=
           {| originalDuration :=
                if 0 <? am_size metadata'
                then Some (- ((- am_size metadata') / 16000))
                else None;
              transcriptLength := transcript_length;
              processingTimeMs := endTime - startTime;
              md_pipelineStages := stages |} |}.

Definition processVoicePipeline (env : Env) (audioFile : File)
  : M ProcessedAudioResult :=
  startTime <- Date_now W ;;
  new_pipelineStages ;;;
  try_catch (pipeline_try env audioFile startTime)
    (fun error =>
       match error with
       | ThrownError (PipelineError _ _ _) => throw error
       | _ => throw (ThrownError (PipelineError (js "Unknown pipeline error")
                                    response_assembly
                                    (message_or Some None error)))
       end).

Definition generateRequestId : M jsstring :=
  now <- Date_now W ;;
  random <- Math_random_toString36 W ;;
  ret (js "req_" ++ Number_toString now ++ js "_" ++ substr 2 9 random).

Definition handlePipelineError (error : ErrorInstance) (stage : jsstring)
  : M ErrorResponse :=
  now <- Date_now W ;;
  let timestamp := toISOString E now in
  requestId <- generateRequestId ;;
  match error with
  | PipelineError message stage' details =>
      ret {| er_error := message;
             er_stage := Some (stage_name stage');
             er_details := details;
             er_timestamp := timestamp;
             er_requestId := Some requestId |}
  | GenericError message stack =>
      let errorMessage := or_default (Some message) (js "Unknown error occurred") in
      let errorDetails :=
        match stack with
        | Some (c :: rest) => nth_error (split 10%N (c :: rest)) 0
        | _ => None
        end in
      ret {| er_error := errorMessage;
             er_stage := Some stage;
             er_details := errorDetails;
             er_timestamp := timestamp;
             er_requestId := Some requestId |}
  end.

End Controller.

(* ================================================================= *)
(** ** index.ts: the POST /process-voice route *)

(** [s.startsWith(prefix)]. *)
Fixpoint startsWith (s prefix : jsstring) : bool :=
  match prefix, s with
  | [], _ => true
  | p :: prefix', c :: s' => N.eqb c p && startsWith s' prefix'
  | _ :: _, [] => false
  end.

(** What [formData.get('audio')] returns: [null], a string field, or a
    file. *)
Inductive FormEntry : Type :=
| EntryMissing
| EntryString (s : jsstring)
| EntryFile (f : File).

(** What the handler returns: [new Response(bytes, { headers })], whose
    status is 200, or [c.json(body, status)]. *)
Inductive HttpResponse : Type :=
| AudioResponse (body : list N) (headers : list (jsstring * jsstring))
| JsonResponse (status : Z) (body : ErrorResponse).

Definition status_of (r : HttpResponse) : Z :=
  match r with
  | AudioResponse _ _ => 200
  | JsonResponse status _ => status
  end.

(** Built-ins of the platform that the route uses and the repository does
    not define. *)
Record Platform : Type := {
  (** [atob(v)]: the decoded binary string, or the message and stack of the
      DOMException (an [Error]) it throws. *)
  atob : value -> jsstring + (jsstring * option jsstring);
  (** [v.toString()] for a [v] that is not a number. *)
  value_toString : value -> completion jsstring;
  (** [JSON.stringify] of the stage log. *)
  JSON_stringify_stages : list PipelineStageResult -> jsstring;
  (** What [handlePipelineError] does with a thrown value that is not an
      [Error] (its parameter is typed [Error]; the route casts). *)
  report_non_error : value -> M ErrorResponse
}.

Section Route.

Variable E : Engine.
Variable W : World.
Variable P : Platform.

Local Open Scope js_scope.

(** [{ error, timestamp: new Date().toISOString(), requestId:
    generateRequestId() }]. *)
Definition error_body (error : jsstring) : M ErrorResponse :=
  now <- Date_now W ;;
  requestId <- generateRequestId W ;;
  ret {| er_error := error; er_stage := None; er_details := None;
         er_timestamp := toISOString E now; er_requestId := Some requestId |}.

(** [v.toString()]. *)
Definition toString_of (v : value) : completion jsstring :=
  match v with
  | VNum n => Normal (Number_toString n)
  | _ => value_toString P v
  end.

(** The bytes of [new Uint8Array] filled with [charCodeAt]. *)
Definition to_bytes (binaryString : jsstring) : list N :=
  map (fun c => (c mod 256)%N) binaryString.

Definition audio_headers (result : ProcessedAudioResult)
           (transcript_length : jsstring) : list (jsstring * jsstring) :=
  [(js "Content-Type", js "audio/wav");
   (js "X-Processing-Time-Ms",
    Number_toString (processingTimeMs (metadata result)));
   (js "X-Transcript-Length", transcript_length);
   (js "X-Pipeline-Stages",
    JSON_stringify_stages P (md_pipelineStages (metadata result)));
   (js "Access-Control-Allow-Origin", js "*");
   (js "Access-Control-Expose-Headers",
    js "X-Processing-Time-Ms, X-Transcript-Length, X-Pipeline-Stages")].

(** Body of the inner [try]. *)
Definition respond_with_audio (env : Env) (audioFile : File) : M HttpResponse :=
  result <- processVoicePipeline E W env audioFile ;;
  binaryString <- match atob P (audioBase64 result) with
                  | inl decoded => ret decoded
                  | inr (message, stack) =>
                      throw (ThrownError (GenericError message stack))
                  end ;;
  transcript_length <- lift (toString_of (transcriptLength (metadata result))) ;;
  ret (AudioResponse (to_bytes binaryString)
                     (audio_headers result transcript_length)).

(** The inner [catch (error)]. *)
Definition respond_with_report (error : thrown) : M HttpResponse :=
  match error with
  | ThrownError (PipelineError message stage details) =>
      errorResponse <- handlePipelineError E W
                         (PipelineError message stage details) (stage_name stage) ;;
      ret (JsonResponse 422 errorResponse)
  | ThrownError (GenericError message stack) =>
      errorResponse <- handlePipelineError E W
                         (GenericError message stack) (js "unknown") ;;
      ret (JsonResponse 500 errorResponse)
  | ThrownValue v =>
      errorResponse <- report_non_error P v ;;
      ret (JsonResponse 500 errorResponse)
  end.

(** The handler of POST /process-voice, given what
    [(await c.req.formData()).get('audio')] settles to. *)
Definition process_voice_route (env : Env) (audio : completion FormEntry)
  : M HttpResponse :=
  try_catch
    (audioFile <- lift audio ;;
     match audioFile with
     | EntryMissing | EntryString [] =>
         errorResponse <- error_body (js "No audio file provided") ;;
         ret (JsonResponse 400 errorResponse)
     | EntryString (c :: s) =>
         throw (engine_TypeError E VUndefined (js "startsWith"))
     | EntryFile file =>
         if negb (startsWith (file_type file) (js "audio/")) then
           errorResponse <- error_body (js "Invalid file type: " ++ file_type file
                                        ++ js ". Expected audio format.") ;;
           ret (JsonResponse 400 errorResponse)
         else
           try_catch (respond_with_audio env file) respond_with_report
     end)
    (fun error =>
       errorResponse <- error_body
                          (message_or (fun m => m) (js "Invalid request format") error) ;;
       ret (JsonResponse 400 errorResponse)).

End Route.

(* ================================================================= *)
(** ** git-haiku-mcp: model.ts and controller.ts *)

Record CommitsValidation : Type := {
  cv_valid : bool;
  cv_error : option jsstring
}.

(** [typeof commit !== 'string' || commit.trim() === '']. *)
Definition bad_commit (commit : value) : bool :=
  match commit with
  | VStr s => match trim s with [] => true | _ => false end
  | _ => true
  end.

(** [validateCommits(commits)], for an array [commits]; its elements are
    declared strings, and checked to be. *)
Definition validateCommits (commits : list value) : CommitsValidation :=
  match commits with
  | [] => {| cv_valid := false;
             cv_error := Some (js "Commits array cannot be empty") |}
  | _ =>
      if existsb bad_commit commits then
        {| cv_valid := false;
           cv_error := Some (js "All commit messages must be non-empty strings") |}
      else {| cv_valid := true; cv_error := None |}
  end.

Definition line_feed : jsstring := [10%N].

Definition haiku_prompt_head : jsstring :=
  js "You are a poetic AI that transforms git commit messages into beautiful haikus."
  ++ line_feed
  ++ js "A haiku has three lines with 5, 7, and 5 syllables respectively."
  ++ line_feed ++ line_feed
  ++ js "Given these git commit messages:" ++ line_feed.

Definition haiku_prompt_tail : jsstring :=
  line_feed ++ line_feed
  ++ js "Create a single haiku that captures the essence of these commits."
  ++ line_feed
  ++ js "The haiku should be about the development work, not just random poetry."
  ++ line_feed
  ++ js "Focus on the technical changes but express them poetically."
  ++ line_feed ++ line_feed
  ++ js "Respond with ONLY the haiku, no explanation or additional text."
  ++ line_feed
  ++ js "Format as three lines, one line per row.".

(** [generateHaikuPrompt(commits)] on an array of strings. *)
Definition generateHaikuPrompt (commits : list jsstring) : jsstring :=
  let commitsText := join line_feed commits in
  haiku_prompt_head ++ commitsText ++ haiku_prompt_tail.

(** [formatHaikuResponse(rawResponse)]: [''] for a falsy response, its
    [trim()] otherwise, which raises a TypeError on a truthy value that is
    not a string. *)
Definition formatHaikuResponse (E : Engine) (rawResponse : value) : completion jsstring :=
  if negb (truthy rawResponse) then Normal []
  else match rawResponse with
       | VStr s => Normal (trim s)
       | _ => Throw (engine_TypeError E rawResponse (js "trim"))
       end.

Definition haiku_model : jsstring := js "@cf/meta/llama-3.3-70b-instruct-fp8-fast".

Definition haiku_failure : jsstring :=
  js "Error: Failed to generate haiku after multiple attempts. Please try again later.".

(** The [env] of the haiku service: what the k-th call of
    [env.AI.run(model, { prompt })] settles to. *)
Record HaikuEnv : Type := {
  haiku_AI_run : nat -> jsstring -> jsstring -> completion value
}.

(** The strings of an array that [validateCommits] accepted. *)
Fixpoint commit_strings (commits : list value) : list jsstring :=
  match commits with
  | [] => []
  | VStr s :: rest => s :: commit_strings rest
  | _ :: rest => commit_strings rest
  end.

(** Body of the [try] of one attempt. *)
Definition haiku_attempt (E : Engine) (env : HaikuEnv) (calls_made : nat)
           (prompt : jsstring) : completion jsstring :=
  match haiku_AI_run env calls_made haiku_model prompt with
  | Throw t => Throw t
  | Normal aiResponse =>
      match get_prop E aiResponse (js "response") with
      | Throw t => Throw t
      | Normal rawResponse => formatHaikuResponse E rawResponse
      end
  end.

(** The [while (attempt < maxAttempts)] loop; [fuel] bounds its iterations.
    The result comes with the number of calls of [env.AI.run]. *)
Fixpoint haiku_loop (E : Engine) (env : HaikuEnv) (prompt : jsstring)
         (maxAttempts attempt fuel : nat) : nat * jsstring :=
  match fuel with
  | O => (attempt, haiku_failure)
  | S fuel' =>
      if (attempt <? maxAttempts)%nat then
        match haiku_attempt E env attempt prompt with
        | Normal haiku => (S attempt, haiku)
        | Throw _ =>
            let attempt' := S attempt in
            if (maxAttempts <=? attempt')%nat then (attempt', haiku_failure)
            else haiku_loop E env prompt maxAttempts attempt' fuel'
        end
      else (attempt, haiku_failure)
  end.

(** [processGitHaiku(commits, env)]: the string it resolves to, with the
    number of calls of [env.AI.run] it made. *)
Definition processGitHaiku (E : Engine) (env : HaikuEnv) (commits : list value)
  : nat * jsstring :=
  let validation' := validateCommits commits in
  if negb (cv_valid validation') then
    (O, js "Error: " ++ match cv_error validation' with
                          | Some e => e
                          | None => js "undefined"
                          end)
  else
    let prompt := generateHaikuPrompt (commit_strings commits) in
    let maxAttempts := 3%nat in
    haiku_loop E env prompt maxAttempts 0 maxAttempts.

(* ================================================================= *)
(** ** Vocabulary of the properties *)

(** Position of a stage in the order of [PipelineStage]. *)
Definition stage_index (s : PipelineStage) : nat :=
  match s with
  | validation => 0
  | whisper => 1
  | llama => 2
  | hume => 3
  | response_assembly => 4
  end.

(** A run of the pipeline from a fresh state. *)
Definition run (E : Engine) (W : World) (env : Env) (audioFile : File)
  : State * completion ProcessedAudioResult :=
  processVoicePipeline E W env audioFile initial_state.

(** The log as (stage, success) pairs. *)
Definition outcomes (log : list PipelineStageResult) : list (PipelineStage * bool) :=
  map (fun r => (sr_stage r, sr_success r)) log.

(** The stage of the first failed entry of the log, if any. *)
Definition first_failing_stage (log : list PipelineStageResult) : option PipelineStage :=
  option_map sr_stage (find (fun r => negb (sr_success r)) log).

Definition is_llama_call (c : Call) : bool :=
  match c with
  | CallAI model _ => str_eqb model llama_model
  | _ => false
  end.

Definition is_hume_call (c : Call) : bool :=
  match c with
  | CallFetch _ _ => true
  | _ => false
  end.

(** The transcription stage yields [transcript]. *)
Definition transcribes (E : Engine) (env : Env) (audioFile : File)
           (transcript : value) : Prop :=
  exists bytes whisperResponse,
    file_arrayBuffer audioFile = Normal bytes /\
    AI_run env whisper_model (whisper_request bytes) = Normal whisperResponse /\
    get_prop E whisperResponse (js "text") = Normal transcript.

(** The response-generation stage yields [llmOutput] for [transcript]. *)
Definition generates (E : Engine) (env : Env) (transcript llmOutput : value) : Prop :=
  exists llamaResponse,
    AI_run env llama_model (llama_request transcript) = Normal llamaResponse /\
    first_choice_content E llamaResponse = Normal llmOutput.

(** [sub] occurs in [s]. *)
Definition contains (s sub : jsstring) : Prop :=
  exists before after, s = before ++ sub ++ after.

(** Two reports of the same error, one after the other. *)
Definition report_twice (E : Engine) (W : World) (error : ErrorInstance)
           (stage : jsstring) : M (ErrorResponse * ErrorResponse) :=
  (first <- handlePipelineError E W error stage ;;
   second <- handlePipelineError E W error stage ;;
   ret (first, second))%js.

(** A rejection with a [PipelineError]. *)
Definition pipeline_error (message : jsstring) (stage : PipelineStage)
           (details : option jsstring) : completion ProcessedAudioResult :=
  Throw (ThrownError (PipelineError message stage details)).

Inductive run_shape (E : Engine) (env : Env) (audioFile : File)
  : State -> completion ProcessedAudioResult -> Prop :=
| shape_invalid s' message :
    valid (validateAudioFile E audioFile) = false ->
    outcomes (pipelineStages s') = [(validation, false)] ->
    calls s' = [] ->
    run_shape E env audioFile s' (pipeline_error message validation None)
| shape_whisper_failed s' details :
    valid (validateAudioFile E audioFile) = true ->
    outcomes (pipelineStages s') = [(validation, true); (whisper, false)] ->
    existsb is_llama_call (calls s') = false ->
    existsb is_hume_call (calls s') = false ->
    run_shape E env audioFile s'
      (pipeline_error (js "Whisper transcription failed") whisper details)
| shape_llama_failed s' details transcript :
    valid (validateAudioFile E audioFile) = true ->
    transcribes E env audioFile transcript ->
    outcomes (pipelineStages s') =
      [(validation, true); (whisper, true); (llama, false)] ->
    existsb is_hume_call (calls s') = false ->
    run_shape E env audioFile s'
      (pipeline_error (js "LLM processing failed") llama details)
| shape_output_invalid s' transcript llmOutput :
    valid (validateAudioFile E audioFile) = true ->
    transcribes E env audioFile transcript ->
    generates E env transcript llmOutput ->
    validatePipelineStages E transcript llmOutput = Normal false ->
    outcomes (pipelineStages s') =
      [(validation, true); (whisper, true); (llama, true);
       (response_assembly, false)] ->
    existsb is_hume_call (calls s') = false ->
    run_shape E env audioFile s'
      (pipeline_error (js "Pipeline validation failed") response_assembly None)
| shape_output_check_throws s' transcript llmOutput error :
    valid (validateAudioFile E audioFile) = true ->
    transcribes E env audioFile transcript ->
    generates E env transcript llmOutput ->
    validatePipelineStages E transcript llmOutput = Throw error ->
    outcomes (pipelineStages s') =
      [(validation, true); (whisper, true); (llama, true)] ->
    existsb is_hume_call (calls s') = false ->
    run_shape E env audioFile s'
      (pipeline_error (js "Unknown pipeline error") response_assembly
                      (message_or Some None error))
| shape_hume_failed s' details transcript llmOutput :
    valid (validateAudioFile E audioFile) = true ->
    transcribes E env audioFile transcript ->
    generates E env transcript llmOutput ->
    validatePipelineStages E transcript llmOutput = Normal true ->
    outcomes (pipelineStages s') =
      [(validation, true); (whisper, true); (llama, true); (hume, false)] ->
    run_shape E env audioFile s'
      (pipeline_error (js "Text-to-speech synthesis failed") hume details)
| shape_success s' t o result :
    valid (validateAudioFile E audioFile) = true ->
    transcribes E env audioFile (VStr t) ->
    generates E env (VStr t) (VStr o) ->
    trim t <> [] -> trim o <> [] ->
    outcomes (pipelineStages s') =
      [(validation, true); (whisper, true); (llama, true); (hume, true);
       (response_assembly, true)] ->
    md_pipelineStages (metadata result) = pipelineStages s' ->
    transcriptLength (metadata result) = VNum (Z.of_nat (length t)) ->
    run_shape E env audioFile s' (Normal result).

(* ================================================================= *)
(** ** Vocabulary of further properties *)

(** [s] has a code unit that [trim] keeps. *)
Definition has_text (s : jsstring) : bool :=
  existsb (fun c => negb (isWhiteSpace c)) s.

(** The duration of a log entry is 0 or the difference of two consecutive
    readings of the clock. *)
Definition timed (W : World) (r : PipelineStageResult) : Prop :=
  sr_durationMs r = 0 \/
  exists k, sr_durationMs r = Date_now_at W (S k) - Date_now_at W k.

(** The readings of the clock never go back. *)
Definition monotone_clock (W : World) : Prop :=
  forall i j, (i <= j)%nat -> Date_now_at W i <= Date_now_at W j.

Fixpoint strictly_increasing (l : list nat) : bool :=
  match l with
  | [] => true
  | x :: rest =>
      match rest with
      | [] => true
      | y :: _ => (x <? y)%nat && strictly_increasing rest
      end
  end.

Definition total_duration (log : list PipelineStageResult) : Z :=
  fold_right (fun r acc => sr_durationMs r + acc) 0 log.

(** [error instanceof Error ? error.message : undefined]. *)
Definition thrown_message (t : thrown) : option jsstring :=
  match t with
  | ThrownError e => Some (error_message e)
  | ThrownValue _ => None
  end.

(** [error instanceof Error ? error.message : 'Unknown error']. *)
Definition logged_message (t : thrown) : jsstring :=
  match t with
  | ThrownError e => error_message e
  | ThrownValue _ => js "Unknown error"
  end.

(** The [try] block of the transcription stage raises [t]: reading the
    file, the Whisper call, or reading [text] off a null response. *)
Definition transcription_fails (E : Engine) (env : Env) (audioFile : File)
           (t : thrown) : Prop :=
  file_arrayBuffer audioFile = Throw t \/
  exists bytes,
    file_arrayBuffer audioFile = Normal bytes /\
    (AI_run env whisper_model (whisper_request bytes) = Throw t \/
     exists whisperResponse,
       AI_run env whisper_model (whisper_request bytes) = Normal whisperResponse /\
       get_prop E whisperResponse (js "text") = Throw t).

(** The [try] block of the response-generation stage raises [t]: the Llama
    call, or reading [choices[0].message.content] off its response. *)
Definition generation_fails (E : Engine) (env : Env) (transcript : value)
           (t : thrown) : Prop :=
  AI_run env llama_model (llama_request transcript) = Throw t \/
  exists llamaResponse,
    AI_run env llama_model (llama_request transcript) = Normal llamaResponse /\
    first_choice_content E llamaResponse = Throw t.

(** The synthesis stage fails in transport with [t]: [fetch] rejects, or
    reading the body of the response does. *)
Definition synthesis_transport_fails (W : World) (env : Env) (llmOutput : value)
           (t : thrown) : Prop :=
  fetch W hume_url (hume_init env llmOutput) = Throw t \/
  exists ttsResponse,
    fetch W hume_url (hume_init env llmOutput) = Normal ttsResponse /\
    ((ok ttsResponse = false /\ text ttsResponse = Throw t) \/
     (ok ttsResponse = true /\ json ttsResponse = Throw t)).

(* ================================================================= *)
(** ** Sample inputs *)

Definition wav_file : File :=
  {| file_size := 1024; file_type := js "audio/wav"; file_name := js "test.wav";
     file_lastModified := 0; file_arrayBuffer := Normal [82; 73; 70; 70] |}.

(** 26 MiB, neither an audio type nor an audio extension. *)
Definition big_text_file : File :=
  {| file_size := 26 * 1024 * 1024; file_type := js "text/plain";
     file_name := js "notes.txt"; file_lastModified := 0;
     file_arrayBuffer := Normal [] |}.

Definition whisper_says (t : jsstring) : completion value :=
  Normal (VObj [(js "text", VStr t)]).

Definition llama_says (t : jsstring) : completion value :=
  Normal (VObj [(js "choices",
                 VArr [VObj [(js "message", VObj [(js "content", VStr t)])]])]).

(** An [env] whose [AI.run] answers by model name. *)
Definition env_of (whisperResult llamaResult : completion value) : Env :=
  {| AI_run := fun model _ =>
                 if str_eqb model whisper_model then whisperResult else llamaResult;
     HUME_API_KEY := VStr (js "test-hume-key") |}.

Definition tts_ok : Response :=
  {| ok := true; status := 200; text := Normal (js "");
     json := Normal (VObj [(js "generations",
                            VArr [VObj [(js "audio", VStr (js "QUJD"));
                                        (js "generationId", VStr (js "gen-123"))]])]) |}.

Definition tts_500 : Response :=
  {| ok := false; status := 500; text := Normal (js "Hume TTS service error");
     json := Throw (ThrownValue VUndefined) |}.

(** A 500 answer whose body cannot be read. *)
Definition tts_500_unreadable : Response :=
  {| ok := false; status := 500;
     text := Throw (ThrownError (GenericError (js "body stream already read") None));
     json := Throw (ThrownValue VUndefined) |}.

Definition tts_empty : Response :=
  {| ok := true; status := 200; text := Normal (js "");
     json := Normal (VObj [(js "generations", VArr [])]) |}.

(** A world whose clock advances by one millisecond per reading. *)
Definition ticking_world (response : completion Response) : World :=
  {| Date_now_at := fun k => 1700000000000 + Z.of_nat k;
     Math_random_at := fun k => js "0." ++ Number_toString (Z.of_nat k) ++ js "fzyo82mvyr";
     fetch := fun _ _ => response |}.

(** A world in which all clock readings fall in the same millisecond; the
    random draws still differ. *)
Definition same_millisecond_world : World :=
  {| Date_now_at := fun _ => 1700000000000;
     Math_random_at := fun k => js "0." ++ Number_toString (Z.of_nat k) ++ js "fzyo82mvyr";
     fetch := fun _ _ => Normal tts_ok |}.

Definition tts_no_audio : Response :=
  {| ok := true; status := 200; text := Normal (js "");
     json := Normal (VObj [(js "generations",
                            VArr [VObj [(js "generationId", VStr (js "gen-123"))]])]) |}.

(** Scenario A of the specification: Whisper hears "hello world", Llama
    answers "Hi there!". *)
Definition chat_env : Env :=
  env_of (whisper_says (js "hello world")) (llama_says (js "Hi there!")).

(** A small PDF. *)
Definition small_pdf_file : File :=
  {| file_size := 7; file_type := js "application/pdf"; file_name := js "test.pdf";
     file_lastModified := 0; file_arrayBuffer := Normal [] |}.

(** An upload without a media type whose name ends in .MP3. *)
Definition untyped_mp3_file : File :=
  {| file_size := 2048; file_type := js ""; file_name := js "memo.MP3";
     file_lastModified := 0; file_arrayBuffer := Normal [73; 68; 51] |}.

(** An [env] whose Whisper model answers [null]. *)
Definition null_whisper_env : Env :=
  env_of (Normal VNull) (llama_says (js "Hi there!")).

(** An [env] whose Llama model answers with an empty list of choices. *)
Definition no_choices_env : Env :=
  env_of (whisper_says (js "hello world"))
         (Normal (VObj [(js "choices", VArr [])])).

(** An [env] whose Whisper model answers with a number for [text]. *)
Definition numeric_text_env : Env :=
  env_of (Normal (VObj [(js "text", VNum 42)])) (llama_says (js "Hi there!")).

(** The error of a failed network request. *)
Definition network_error : thrown :=
  ThrownError (GenericError (js "fetch failed") None).

(** A platform to run examples on: [atob] knows the payload of [tts_ok]
    and rejects anything else, the stage log is not rendered. *)
Definition demo_platform : Platform :=
  {| atob := fun v =>
       match v with
       | VStr [81; 85; 74; 68]%N => inl (js "ABC")
       | _ => inr (js "Invalid character", None)
       end;
     value_toString := fun _ => Normal (js "");
     JSON_stringify_stages := fun _ => js "[]";
     report_non_error := fun _ => throw (ThrownValue VUndefined) |}.

(** A synthesis answer whose audio is not base64. *)
Definition tts_garbled : Response :=
  {| ok := true; status := 200; text := Normal (js "");
     json := Normal (VObj [(js "generations",
                            VArr [VObj [(js "audio", VStr (js "%%%"))]])]) |}.

(** 26 MiB of audio. *)
Definition big_wav_file : File :=
  {| file_size := 26 * 1024 * 1024; file_type := js "audio/wav";
     file_name := js "long.wav"; file_lastModified := 0;
     file_arrayBuffer := Normal [] |}.

(** A haiku model that fails twice, then answers with a padded haiku. *)
Definition flaky_haiku_env : HaikuEnv :=
  {| haiku_AI_run := fun k _ _ =>
       match k with
       | 0%nat => Throw (ThrownError (GenericError (js "upstream timeout") None))
       | 1%nat => Normal VNull
       | _ => Normal (VObj [(js "response",
                             VStr ([10%N; 32%N] ++ js "Tests turn green at last" ++ [10%N]))])
       end |}.

(** A haiku model that always fails. *)
Definition dead_haiku_env : HaikuEnv :=
  {| haiku_AI_run := fun _ _ _ =>
       Throw (ThrownError (GenericError (js "model unavailable") None)) |}.

Definition two_commits : list value :=
  [VStr (js "fix: handle empty transcript"); VStr (js "feat: add retry")].

(* ================================================================= *)
(** ** Proof tactics *)

(** Unfolds the controller down to the results of the calls it makes. *)
Ltac unfold_pipeline :=
  cbv beta iota zeta delta
    [run processVoicePipeline pipeline_try whisper_try llama_try hume_try
     stage_catch new_Error bind ret throw try_catch lift push await Date_now
     new_pipelineStages initial_state
     clock_reads random_draws pipelineStages calls
     outcomes map app existsb length is_llama_call is_hume_call
     sr_stage sr_success negb].

(** Unfolds the error reporter down to the readings it takes. *)
Ltac unfold_reporter :=
  cbv beta iota zeta delta
    [report_twice handlePipelineError generateRequestId bind ret Date_now
     Math_random_toString36 clock_reads random_draws pipelineStages calls].

Ltac next := cbv beta iota.

Ltac close_shape c :=
  cbn [fst snd];
  first [ eapply c; try eassumption; try reflexivity;
          try (eexists; eexists; repeat split; eassumption);
          try (eexists; repeat split; eassumption) ].

(* ================================================================= *)
(** ** Input validation *)

Example trim_strips_both_ends : trim (js "  a b  ") = js "a b".
Proof. reflexivity. Qed.

Example trim_of_whitespace_is_empty : trim [32; 32; 10; 9; 32]%N = [].
Proof. reflexivity. Qed.

Example split_keeps_empty_tail : split 46%N (js "a.b.") = [js "a"; js "b"; js ""].
Proof. reflexivity. Qed.

Example extension_is_lowercased :
  fileExtension demo_engine
    {| file_size := 1; file_type := js ""; file_name := js "Clip.final.WAV";
       file_lastModified := 0; file_arrayBuffer := Normal [] |} = Some (js "wav").
Proof. reflexivity. Qed.

Example iso_rendering : iso_toISOString 1700000000000 = js "2023-11-14T22:13:20.000Z".
Proof. vm_compute. reflexivity. Qed.

Example wav_file_is_valid : valid (validateAudioFile demo_engine wav_file) = true.
Proof. reflexivity. Qed.

Lemma MAX_FILE_SIZE_value : MAX_FILE_SIZE = 26214400.
Proof. reflexivity. Qed.

Lemma validateAudioFile_oversize_eq (E : Engine) (file : File) :
  MAX_FILE_SIZE < file_size file ->
  validateAudioFile E file =
    {| valid := false;
       vr_error := Some (js "File size exceeds maximum allowed size of 25MB");
       vr_details := Some {| fileSize := Some (file_size file);
                             fileType := Some (file_type file);
                             maxSizeExceeded := Some true;
                             unsupportedFormat := Some false |} |}.
Proof.
  intros Hbig. unfold validateAudioFile.
  apply Z.ltb_lt in Hbig. rewrite Hbig. reflexivity.
Qed.

(** C6. Every artifact larger than 25 MiB (26214400 bytes) is rejected by
    [validateAudioFile] with [maxSizeExceeded = true] and with [fileSize]
    the observed size.  [validateAudioFile] is a total function of the
    declared metadata: whatever the file, it returns a [ValidationResult]
    (no step of it can raise). *)
Theorem validateAudioFile_rejects_oversize (E : Engine) (file : File) :
  26214400 < file_size file ->
  exists r d,
    validateAudioFile E file = r /\
    valid r = false /\
    vr_details r = Some d /\
    maxSizeExceeded d = Some true /\
    fileSize d = Some (file_size file).
Proof.
  intros Hbig. rewrite <- MAX_FILE_SIZE_value in Hbig.
  rewrite (validateAudioFile_oversize_eq E file Hbig).
  eexists; eexists; repeat split.
Qed.

Lemma validateAudioFile_rejects_oversize_witness :
  exists r d,
    validateAudioFile demo_engine big_text_file = r /\
    valid r = false /\
    vr_details r = Some d /\
    maxSizeExceeded d = Some true /\
    fileSize d = Some 27262976.
Proof.
  apply (validateAudioFile_rejects_oversize demo_engine big_text_file).
  reflexivity.
Defined.

(** C10. For every artifact larger than 25 MiB, [validateAudioFile] reports
    [unsupportedFormat = false], whatever the media type and the file name:
    the size check returns before the format check is evaluated, also when
    both the declared type and the extension are unsupported (as for the
    file of the witness). *)
Theorem validateAudioFile_oversize_skips_format (E : Engine) (file : File) :
  MAX_FILE_SIZE < file_size file ->
  exists d,
    vr_details (validateAudioFile E file) = Some d /\
    unsupportedFormat d = Some false.
Proof.
  intros Hbig.
  rewrite (validateAudioFile_oversize_eq E file Hbig).
  eexists; split; reflexivity.
Qed.

Lemma validateAudioFile_oversize_skips_format_witness :
  isValidMimeType big_text_file = false /\
  hasValidExtension demo_engine big_text_file = false /\
  exists d,
    vr_details (validateAudioFile demo_engine big_text_file) = Some d /\
    unsupportedFormat d = Some false.
Proof.
  split; [reflexivity | split; [reflexivity | ]].
  apply (validateAudioFile_oversize_skips_format demo_engine big_text_file).
  reflexivity.
Defined.

(* ================================================================= *)
(** ** Runs of the pipeline *)

(** C5. If validation succeeds and the Whisper call rejects, the run fails
    with a [PipelineError] tagged [whisper]; the log holds exactly two
    entries, a validation success and a whisper failure; neither the Llama
    call nor the Hume call is made. *)
Theorem whisper_rejection_stops_run
        (E : Engine) (W : World) (env : Env) (audioFile : File)
        (bytes : list Z) (t : thrown) :
  valid (validateAudioFile E audioFile) = true ->
  file_arrayBuffer audioFile = Normal bytes ->
  AI_run env whisper_model (whisper_request bytes) = Throw t ->
  exists s' details,
    run E W env audioFile =
      (s', Throw (ThrownError
                    (PipelineError (js "Whisper transcription failed") whisper details))) /\
    outcomes (pipelineStages s') = [(validation, true); (whisper, false)] /\
    calls s' = [CallArrayBuffer; CallAI whisper_model (whisper_request bytes)] /\
    existsb is_llama_call (calls s') = false /\
    existsb is_hume_call (calls s') = false.
Proof.
  intros Hvalid Hbuf Hrun.
  unfold_pipeline. rewrite Hvalid, Hbuf. cbv beta iota. rewrite Hrun.
  eexists; eexists; repeat split.
Qed.

Lemma whisper_rejection_stops_run_witness :
  exists s' details,
    run demo_engine (ticking_world (Normal tts_ok))
        (env_of (Throw (ThrownError (GenericError (js "Whisper API error") None)))
                (llama_says (js "Hi there!")))
        wav_file =
      (s', Throw (ThrownError
                    (PipelineError (js "Whisper transcription failed") whisper details))) /\
    outcomes (pipelineStages s') = [(validation, true); (whisper, false)] /\
    calls s' = [CallArrayBuffer;
                CallAI whisper_model (whisper_request [82; 73; 70; 70])] /\
    existsb is_llama_call (calls s') = false /\
    existsb is_hume_call (calls s') = false.
Proof.
  apply (whisper_rejection_stops_run demo_engine (ticking_world (Normal tts_ok))
           (env_of (Throw (ThrownError (GenericError (js "Whisper API error") None)))
                   (llama_says (js "Hi there!")))
           wav_file [82; 73; 70; 70]
           (ThrownError (GenericError (js "Whisper API error") None))).
  - reflexivity.
  - reflexivity.
  - reflexivity.
Defined.

(* ----------------------------------------------------------------- *)
(** *** The output check *)

Lemma is_blank_string (E : Engine) (t : jsstring) :
  trim t = [] -> is_blank E (VStr t) = Normal true.
Proof.
  intros Ht. unfold is_blank. destruct t as [|c t']; simpl.
  - reflexivity.
  - rewrite Ht. reflexivity.
Qed.

Lemma is_blank_string_cases (E : Engine) (t : jsstring) :
  exists b, is_blank E (VStr t) = Normal b.
Proof.
  unfold is_blank. destruct t as [|c t']; simpl; eexists; reflexivity.
Qed.

Lemma validatePipelineStages_blank_transcript (E : Engine) (transcript llmOutput : value) :
  is_blank E transcript = Normal true ->
  validatePipelineStages E transcript llmOutput = Normal false.
Proof.
  intros H. unfold validatePipelineStages. rewrite H. reflexivity.
Qed.

Lemma validatePipelineStages_blank (E : Engine) (t o : jsstring) :
  trim t = [] \/ trim o = [] ->
  validatePipelineStages E (VStr t) (VStr o) = Normal false.
Proof.
  intros [Ht | Ho].
  - apply validatePipelineStages_blank_transcript, is_blank_string, Ht.
  - unfold validatePipelineStages.
    destruct (is_blank_string_cases E t) as [b Hb]. rewrite Hb.
    destruct b; [reflexivity|].
    rewrite (is_blank_string E o Ho). reflexivity.
Qed.

(** What a successful output check says about its arguments. *)
Lemma validatePipelineStages_true (E : Engine) (transcript llmOutput : value) :
  validatePipelineStages E transcript llmOutput = Normal true ->
  exists t o, transcript = VStr t /\ llmOutput = VStr o /\
              trim t <> [] /\ trim o <> [].
Proof.
  unfold validatePipelineStages, is_blank.
  destruct (truthy transcript) eqn:Tt; simpl; [|discriminate].
  destruct transcript; try discriminate.
  destruct (length (trim s)) eqn:Ls; simpl; [discriminate|].
  destruct (truthy llmOutput) eqn:To; simpl; [|discriminate].
  destruct llmOutput; try discriminate.
  destruct (length (trim s0)) eqn:Ls0; simpl; [discriminate|].
  intros _. exists s, s0. repeat split; intros Hnil.
  - rewrite Hnil in Ls. discriminate.
  - rewrite Hnil in Ls0. discriminate.
Qed.

(** The output check raises nothing but the engine's TypeError. *)
Lemma validatePipelineStages_throws (E : Engine) (transcript llmOutput : value)
      (error : thrown) :
  validatePipelineStages E transcript llmOutput = Throw error ->
  exists message stack, error = ThrownError (GenericError message stack).
Proof.
  assert (Hblank : forall v e, is_blank E v = Throw e ->
                     exists message stack, e = ThrownError (GenericError message stack)).
  { intros v e. unfold is_blank.
    destruct (negb (truthy v)); [discriminate|].
    destruct v; intros H; inversion H; eexists; eexists; reflexivity. }
  unfold validatePipelineStages.
  destruct (is_blank E transcript) as [[|]|e1] eqn:H1; try discriminate.
  - destruct (is_blank E llmOutput) as [[|]|e2] eqn:H2; try discriminate.
    intros H; inversion H; subst. eapply Hblank, H2.
  - intros H; inversion H; subst. eapply Hblank, H1.
Qed.

(** C3, as the code has it. Whenever the transcript or the generated
    response is empty or whitespace-only, the run fails at the output check
    before any Hume call: it raises a [PipelineError] tagged
    [response-assembly] whose message is "Pipeline validation failed", and
    the log ends with one failed [response-assembly] entry of duration 0
    (error "Invalid pipeline output"). *)
Theorem blank_output_fails_before_synthesis
        (E : Engine) (W : World) (env : Env) (audioFile : File)
        (t o : jsstring) :
  valid (validateAudioFile E audioFile) = true ->
  transcribes E env audioFile (VStr t) ->
  generates E env (VStr t) (VStr o) ->
  trim t = [] \/ trim o = [] ->
  exists s',
    run E W env audioFile =
      (s', Throw (ThrownError
                    (PipelineError (js "Pipeline validation failed")
                                   response_assembly None))) /\
    outcomes (pipelineStages s') =
      [(validation, true); (whisper, true); (llama, true);
       (response_assembly, false)] /\
    nth_error (pipelineStages s') 3 =
      Some {| sr_stage := response_assembly; sr_success := false;
              sr_durationMs := 0;
              sr_error := Some (js "Invalid pipeline output") |} /\
    existsb is_hume_call (calls s') = false.
Proof.
  intros Hvalid (bytes & wresp & Hbuf & Hrun & Htext) (lresp & Hllama & Hcontent) Hblank.
  unfold_pipeline. rewrite Hvalid, Hbuf. cbv beta iota.
  rewrite Hrun. cbv beta iota. rewrite Htext, Hllama. cbv beta iota.
  rewrite Hcontent, (validatePipelineStages_blank E t o Hblank).
  eexists; repeat split.
Qed.

Lemma blank_output_fails_before_synthesis_witness :
  exists s',
    run demo_engine (ticking_world (Normal tts_ok))
        (env_of (whisper_says (js "")) (llama_says (js "Some response")))
        wav_file =
      (s', Throw (ThrownError
                    (PipelineError (js "Pipeline validation failed")
                                   response_assembly None))) /\
    outcomes (pipelineStages s') =
      [(validation, true); (whisper, true); (llama, true);
       (response_assembly, false)] /\
    nth_error (pipelineStages s') 3 =
      Some {| sr_stage := response_assembly; sr_success := false;
              sr_durationMs := 0;
              sr_error := Some (js "Invalid pipeline output") |} /\
    existsb is_hume_call (calls s') = false.
Proof.
  apply (blank_output_fails_before_synthesis demo_engine
           (ticking_world (Normal tts_ok))
           (env_of (whisper_says (js "")) (llama_says (js "Some response")))
           wav_file (js "") (js "Some response")).
  - reflexivity.
  - eexists; eexists; repeat split.
  - eexists; repeat split.
  - left; reflexivity.
Defined.

(** C3 as stated fails on the message: with an empty transcript and the
    response "Some response", no run result carries the message
    "output validation failed". *)
Lemma output_check_message_is_not_output_validation_failed :
  transcribes demo_engine
    (env_of (whisper_says (js "")) (llama_says (js "Some response")))
    wav_file (VStr (js "")) /\
  trim (js "") = [] /\
  forall s' details,
    run demo_engine (ticking_world (Normal tts_ok))
        (env_of (whisper_says (js "")) (llama_says (js "Some response")))
        wav_file <>
      (s', Throw (ThrownError
                    (PipelineError (js "output validation failed")
                                   response_assembly details))).
Proof.
  split; [eexists; eexists; repeat split | split; [reflexivity|]].
  intros s' details H. vm_compute in H. discriminate H.
Qed.

(* ----------------------------------------------------------------- *)
(** *** A transcription response without usable text *)

(** C2, as the code has it. When the Whisper response has a [text] that is
    missing or blank ([undefined], [null], empty or whitespace-only), the
    whisper stage is recorded as a success and the Llama call is still made;
    the run fails later, tagged [llama] if the response-generation stage
    fails, and otherwise at the output check, tagged [response-assembly]
    with the message "Pipeline validation failed".  It never fails tagged
    [whisper]. *)
Theorem unusable_text_passes_whisper_stage
        (E : Engine) (W : World) (env : Env) (audioFile : File)
        (bytes : list Z) (whisperResponse text' : value) :
  valid (validateAudioFile E audioFile) = true ->
  file_arrayBuffer audioFile = Normal bytes ->
  AI_run env whisper_model (whisper_request bytes) = Normal whisperResponse ->
  get_prop E whisperResponse (js "text") = Normal text' ->
  is_blank E text' = Normal true ->
  exists s' message stage details,
    run E W env audioFile =
      (s', Throw (ThrownError (PipelineError message stage details))) /\
    (stage = llama \/ stage = response_assembly) /\
    nth_error (outcomes (pipelineStages s')) 1 = Some (whisper, true) /\
    existsb is_llama_call (calls s') = true /\
    (forall llmOutput,
        generates E env text' llmOutput ->
        message = js "Pipeline validation failed" /\
        stage = response_assembly /\
        outcomes (pipelineStages s') =
          [(validation, true); (whisper, true); (llama, true);
           (response_assembly, false)]) /\
    (forall t,
        generation_fails E env text' t ->
        message = js "LLM processing failed" /\
        stage = llama /\
        details = thrown_message t /\
        outcomes (pipelineStages s') =
          [(validation, true); (whisper, true); (llama, false)]).
Proof.
  intros Hvalid Hbuf Hrun Htext Hblank.
  unfold_pipeline. rewrite Hvalid, Hbuf. cbv beta iota.
  rewrite Hrun. cbv beta iota. rewrite Htext.
  destruct (AI_run env llama_model (llama_request text')) as [lresp|e] eqn:Hllama;
    cbv beta iota.
  - destruct (first_choice_content E lresp) as [llmOutput|e] eqn:Hcontent;
      cbv beta iota.
    + rewrite (validatePipelineStages_blank_transcript E text' llmOutput Hblank).
      do 4 eexists. split; [reflexivity|]. split; [right; reflexivity|].
      split; [reflexivity|]. split; [reflexivity|]. split.
      * intros llmOutput' _. repeat split.
      * intros t [Hf | (lresp' & Hf & Hc)]; [congruence|].
        assert (lresp' = lresp) by congruence. subst. congruence.
    + do 4 eexists. split; [reflexivity|]. split; [left; reflexivity|].
      split; [reflexivity|]. split; [reflexivity|]. split.
      * intros llmOutput (lresp' & H1 & H2).
        assert (lresp' = lresp) by congruence. subst. congruence.
      * intros t [Hf | (lresp' & Hf & Hc)]; [congruence|].
        assert (lresp' = lresp) by congruence. subst.
        assert (t = e) by congruence. subst.
        destruct e; repeat split.
  - do 4 eexists. split; [reflexivity|]. split; [left; reflexivity|].
    split; [reflexivity|]. split; [reflexivity|]. split.
    + intros llmOutput (lresp' & H1 & H2). congruence.
    + intros t [Hf | (lresp' & Hf & Hc)]; [|congruence].
      assert (t = e) by congruence. subst.
      destruct e; repeat split.
Qed.

Lemma unusable_text_passes_whisper_stage_witness :
  (exists s' message stage details,
    run demo_engine (ticking_world (Normal tts_ok))
        (env_of (Normal (VObj [])) (llama_says (js "Some response")))
        wav_file =
      (s', Throw (ThrownError (PipelineError message stage details))) /\
    (stage = llama \/ stage = response_assembly) /\
    nth_error (outcomes (pipelineStages s')) 1 = Some (whisper, true) /\
    existsb is_llama_call (calls s') = true /\
    (forall llmOutput,
        generates demo_engine
          (env_of (Normal (VObj [])) (llama_says (js "Some response")))
          VUndefined llmOutput ->
        message = js "Pipeline validation failed" /\
        stage = response_assembly /\
        outcomes (pipelineStages s') =
          [(validation, true); (whisper, true); (llama, true);
           (response_assembly, false)]) /\
    (forall t,
        generation_fails demo_engine
          (env_of (Normal (VObj [])) (llama_says (js "Some response")))
          VUndefined t ->
        message = js "LLM processing failed" /\
        stage = llama /\
        details = thrown_message t /\
        outcomes (pipelineStages s') =
          [(validation, true); (whisper, true); (llama, false)]))
  /\
  generates demo_engine
    (env_of (Normal (VObj [])) (llama_says (js "Some response")))
    VUndefined (VStr (js "Some response"))
  /\
  (exists s' message stage details,
    run demo_engine (ticking_world (Normal tts_ok))
        (env_of (Normal (VObj [])) (Throw network_error))
        wav_file =
      (s', Throw (ThrownError (PipelineError message stage details))) /\
    (stage = llama \/ stage = response_assembly) /\
    nth_error (outcomes (pipelineStages s')) 1 = Some (whisper, true) /\
    existsb is_llama_call (calls s') = true /\
    (forall llmOutput,
        generates demo_engine
          (env_of (Normal (VObj [])) (Throw network_error))
          VUndefined llmOutput ->
        message = js "Pipeline validation failed" /\
        stage = response_assembly /\
        outcomes (pipelineStages s') =
          [(validation, true); (whisper, true); (llama, true);
           (response_assembly, false)]) /\
    (forall t,
        generation_fails demo_engine
          (env_of (Normal (VObj [])) (Throw network_error))
          VUndefined t ->
        message = js "LLM processing failed" /\
        stage = llama /\
        details = thrown_message t /\
        outcomes (pipelineStages s') =
          [(validation, true); (whisper, true); (llama, false)]))
  /\
  generation_fails demo_engine
    (env_of (Normal (VObj [])) (Throw network_error))
    VUndefined network_error.
Proof.
  split; [|split; [|split]].
  - apply (unusable_text_passes_whisper_stage demo_engine
             (ticking_world (Normal tts_ok))
             (env_of (Normal (VObj [])) (llama_says (js "Some response")))
             wav_file [82; 73; 70; 70] (VObj []) VUndefined).
    + reflexivity.
    + reflexivity.
    + reflexivity.
    + reflexivity.
    + reflexivity.
  - eexists. split; reflexivity.
  - apply (unusable_text_passes_whisper_stage demo_engine
             (ticking_world (Normal tts_ok))
             (env_of (Normal (VObj [])) (Throw network_error))
             wav_file [82; 73; 70; 70] (VObj []) VUndefined).
    + reflexivity.
    + reflexivity.
    + reflexivity.
    + reflexivity.
    + reflexivity.
  - left. reflexivity.
Defined.

(** C2 as stated fails: a Whisper response that is an object with no
    [text] property does not make the transcription stage reject.  The
    whisper entry of the log is a success and the failure of the run is
    tagged [response-assembly]. *)
Lemma missing_text_is_not_a_whisper_failure :
  get_prop demo_engine (VObj []) (js "text") = Normal VUndefined /\
  exists s',
    run demo_engine (ticking_world (Normal tts_ok))
        (env_of (Normal (VObj [])) (llama_says (js "Some response")))
        wav_file =
      (s', Throw (ThrownError
                    (PipelineError (js "Pipeline validation failed")
                                   response_assembly None))) /\
    nth_error (outcomes (pipelineStages s')) 1 = Some (whisper, true) /\
    response_assembly <> whisper.
Proof.
  split; [reflexivity|].
  eexists. split; [vm_compute; reflexivity|].
  split; [reflexivity | discriminate].
Qed.

(* ----------------------------------------------------------------- *)
(** *** Failures of the synthesis stage *)

Lemma has_audio_zero_generations (E : Engine) (ttsData : value) :
  get_prop E ttsData (js "generations") = Normal (VArr []) ->
  has_audio E ttsData = Normal false.
Proof.
  intros H. unfold has_audio. rewrite H. reflexivity.
Qed.

Lemma has_audio_first_without_audio
      (E : Engine) (ttsData generation : value) (rest : list value) :
  get_prop E ttsData (js "generations") = Normal (VArr (generation :: rest)) ->
  get_prop_opt E generation (js "audio") = Normal VUndefined ->
  has_audio E ttsData = Normal false.
Proof.
  intros Hg Ha. unfold has_audio. rewrite Hg. cbn [truthy negb].
  cbv beta iota.
  change (get_prop E (VArr (generation :: rest)) (js "length"))
    with (Normal (A:=value) (VNum (Z.of_nat (length (generation :: rest))))).
  cbv beta iota. unfold gt_zero.
  replace (0 <? Z.of_nat (length (generation :: rest))) with true
    by (symmetry; apply Z.ltb_lt; simpl length; lia).
  cbn [get_index0 nth]. rewrite Ha. reflexivity.
Qed.

(** C7, as the code has it. Once the run has reached the synthesis stage:
    if the Hume HTTP call answers with a non-success status, the run fails
    with a [PipelineError] tagged [hume]; when the body of the response can
    be read ([text()] resolves) the details are
    "Hume API error: <status> - <body>", which contain the status code and
    the text of the body, and when reading the body rejects the details are
    the message of that rejection, without the status code.  If the answer
    is a success whose data has zero generations, or whose first generation
    has no audio, the run likewise fails with a [PipelineError] tagged
    [hume]. *)
Theorem hume_failures_are_tagged_hume
        (E : Engine) (W : World) (env : Env) (audioFile : File)
        (transcript llmOutput : value) (ttsResponse : Response) :
  valid (validateAudioFile E audioFile) = true ->
  transcribes E env audioFile transcript ->
  generates E env transcript llmOutput ->
  validatePipelineStages E transcript llmOutput = Normal true ->
  fetch W hume_url (hume_init env llmOutput) = Normal ttsResponse ->
  (ok ttsResponse = false ->
   exists s' details,
     run E W env audioFile =
       (s', pipeline_error (js "Text-to-speech synthesis failed") hume details) /\
     outcomes (pipelineStages s') =
       [(validation, true); (whisper, true); (llama, true); (hume, false)] /\
     (forall errorText,
       text ttsResponse = Normal errorText ->
       exists detail,
         details = Some detail /\
         detail = js "Hume API error: " ++ Number_toString (status ttsResponse)
                  ++ js " - " ++ errorText /\
         contains detail (Number_toString (status ttsResponse)) /\
         contains detail errorText) /\
     (forall t,
       text ttsResponse = Throw t ->
       details = thrown_message t))
  /\
  (ok ttsResponse = true ->
   forall ttsData, json ttsResponse = Normal ttsData ->
   (get_prop E ttsData (js "generations") = Normal (VArr []) \/
    exists generation rest,
      get_prop E ttsData (js "generations") = Normal (VArr (generation :: rest)) /\
      get_prop_opt E generation (js "audio") = Normal VUndefined) ->
   exists s',
     run E W env audioFile =
       (s', pipeline_error (js "Text-to-speech synthesis failed") hume
              (Some (js "No audio generated by TTS service"))) /\
     outcomes (pipelineStages s') =
       [(validation, true); (whisper, true); (llama, true); (hume, false)]).
Proof.
  intros Hvalid (bytes & wresp & Hbuf & Hrun & Htext) (lresp & Hllama & Hcontent)
         Hcheck Hfetch.
  split.
  - intros Hok.
    unfold pipeline_error. unfold_pipeline. rewrite Hvalid, Hbuf. next.
    rewrite Hrun. next. rewrite Htext, Hllama. next.
    rewrite Hcontent, Hcheck. next. rewrite Hfetch. next.
    rewrite Hok. next.
    destruct (text ttsResponse) as [body|e] eqn:Htxt; next.
    + eexists; eexists. split; [reflexivity|]. split; [reflexivity|]. split.
      * intros errorText Heq. inversion Heq; subst errorText.
        eexists. split; [reflexivity|]. split; [reflexivity|]. split.
        -- exists (js "Hume API error: "), (js " - " ++ body). reflexivity.
        -- exists (js "Hume API error: " ++ Number_toString (status ttsResponse)
                   ++ js " - "), [].
           rewrite app_nil_r, <- !app_assoc. reflexivity.
      * intros t Heq. discriminate Heq.
    + eexists; eexists. split; [reflexivity|]. split; [reflexivity|]. split.
      * intros errorText Heq. discriminate Heq.
      * intros t Heq. injection Heq as <-. destruct e; reflexivity.
  - intros Hok ttsData Hjson Hnone.
    assert (Haudio : has_audio E ttsData = Normal false).
    { destruct Hnone as [Hzero | (g & rest & Hg & Ha)].
      - apply has_audio_zero_generations, Hzero.
      - apply (has_audio_first_without_audio E ttsData g rest Hg Ha). }
    unfold pipeline_error. unfold_pipeline. rewrite Hvalid, Hbuf. next.
    rewrite Hrun. next. rewrite Htext, Hllama. next.
    rewrite Hcontent, Hcheck. next. rewrite Hfetch. next.
    rewrite Hok, Hjson. next. rewrite Haudio.
    eexists. split; reflexivity.
Qed.

Lemma hume_failures_are_tagged_hume_witness :
  (exists s' details,
     run demo_engine (ticking_world (Normal tts_500)) chat_env wav_file =
       (s', pipeline_error (js "Text-to-speech synthesis failed") hume details) /\
     outcomes (pipelineStages s') =
       [(validation, true); (whisper, true); (llama, true); (hume, false)] /\
     (forall errorText,
       text tts_500 = Normal errorText ->
       exists detail,
         details = Some detail /\
         detail = js "Hume API error: " ++ Number_toString (status tts_500)
                  ++ js " - " ++ errorText /\
         contains detail (Number_toString (status tts_500)) /\
         contains detail errorText) /\
     (forall t, text tts_500 = Throw t -> details = thrown_message t))
  /\
  (exists s' details,
     run demo_engine (ticking_world (Normal tts_500_unreadable)) chat_env wav_file =
       (s', pipeline_error (js "Text-to-speech synthesis failed") hume details) /\
     outcomes (pipelineStages s') =
       [(validation, true); (whisper, true); (llama, true); (hume, false)] /\
     (forall errorText,
       text tts_500_unreadable = Normal errorText ->
       exists detail,
         details = Some detail /\
         detail = js "Hume API error: "
                  ++ Number_toString (status tts_500_unreadable)
                  ++ js " - " ++ errorText /\
         contains detail (Number_toString (status tts_500_unreadable)) /\
         contains detail errorText) /\
     (forall t, text tts_500_unreadable = Throw t -> details = thrown_message t))
  /\
  (exists s',
     run demo_engine (ticking_world (Normal tts_empty)) chat_env wav_file =
       (s', pipeline_error (js "Text-to-speech synthesis failed") hume
              (Some (js "No audio generated by TTS service"))) /\
     outcomes (pipelineStages s') =
       [(validation, true); (whisper, true); (llama, true); (hume, false)])
  /\
  (exists s',
     run demo_engine (ticking_world (Normal tts_no_audio)) chat_env wav_file =
       (s', pipeline_error (js "Text-to-speech synthesis failed") hume
              (Some (js "No audio generated by TTS service"))) /\
     outcomes (pipelineStages s') =
       [(validation, true); (whisper, true); (llama, true); (hume, false)]).
Proof.
  assert (Ht : transcribes demo_engine chat_env wav_file (VStr (js "hello world")))
    by (eexists; eexists; repeat split).
  assert (Hg : generates demo_engine chat_env
                 (VStr (js "hello world")) (VStr (js "Hi there!")))
    by (eexists; repeat split).
  split; [|split; [|split]].
  - apply (proj1 (hume_failures_are_tagged_hume demo_engine
                    (ticking_world (Normal tts_500)) chat_env
                    wav_file (VStr (js "hello world")) (VStr (js "Hi there!"))
                    tts_500 eq_refl Ht Hg eq_refl eq_refl)
                 eq_refl).
  - apply (proj1 (hume_failures_are_tagged_hume demo_engine
                    (ticking_world (Normal tts_500_unreadable)) chat_env
                    wav_file (VStr (js "hello world")) (VStr (js "Hi there!"))
                    tts_500_unreadable eq_refl Ht Hg eq_refl eq_refl)
                 eq_refl).
  - apply (proj2 (hume_failures_are_tagged_hume demo_engine
                    (ticking_world (Normal tts_empty)) chat_env
                    wav_file (VStr (js "hello world")) (VStr (js "Hi there!"))
                    tts_empty eq_refl Ht Hg eq_refl eq_refl)
                 eq_refl
                 (VObj [(js "generations", VArr [])]) eq_refl
                 (or_introl eq_refl)).
  - apply (proj2 (hume_failures_are_tagged_hume demo_engine
                    (ticking_world (Normal tts_no_audio)) chat_env
                    wav_file (VStr (js "hello world")) (VStr (js "Hi there!"))
                    tts_no_audio eq_refl Ht Hg eq_refl eq_refl)
                 eq_refl
                 (VObj [(js "generations",
                         VArr [VObj [(js "generationId", VStr (js "gen-123"))]])])
                 eq_refl).
    right. eexists; eexists. split; reflexivity.
Defined.

Lemma contains_In (s sub : jsstring) (c : N) :
  contains s sub -> In c sub -> In c s.
Proof.
  intros (before & after & ->) Hin.
  apply in_or_app. right. apply in_or_app. left. exact Hin.
Qed.

(** C7 as stated fails: when the Hume call answers 500 and reading the body
    of the response rejects, the run fails tagged [hume] with the message
    of that rejection as details, which does not contain the status
    code. *)
Lemma unreadable_body_loses_the_status_code :
  ok tts_500_unreadable = false /\
  status tts_500_unreadable = 500 /\
  exists s',
    run demo_engine (ticking_world (Normal tts_500_unreadable)) chat_env wav_file =
      (s', pipeline_error (js "Text-to-speech synthesis failed") hume
             (Some (js "body stream already read"))) /\
    ~ contains (js "body stream already read")
               (Number_toString (status tts_500_unreadable)).
Proof.
  split; [reflexivity|]. split; [reflexivity|].
  eexists. split; [vm_compute; reflexivity|].
  intros Hc.
  assert (Hin : In 53%N (js "body stream already read")).
  { apply (contains_In _ _ 53%N Hc). left. reflexivity. }
  vm_compute in Hin.
  repeat (destruct Hin as [Hin|Hin]; [discriminate Hin|]).
  exact Hin.
Qed.

(* ----------------------------------------------------------------- *)
(** *** Every run, by the stage where it ends *)

Lemma run_has_shape (E : Engine) (W : World) (env : Env) (audioFile : File) :
  run_shape E env audioFile
            (fst (run E W env audioFile)) (snd (run E W env audioFile)).
Proof.
  unfold pipeline_error.
  unfold_pipeline.
  destruct (valid (validateAudioFile E audioFile)) eqn:Hvalid; next;
    [| close_shape shape_invalid ].
  destruct (file_arrayBuffer audioFile) as [bytes|e] eqn:Hbuf; next;
    [| close_shape shape_whisper_failed ].
  destruct (AI_run env whisper_model (whisper_request bytes)) as [wresp|e] eqn:Hrun;
    next; [| close_shape shape_whisper_failed ].
  destruct (get_prop E wresp (js "text")) as [transcript|e] eqn:Htext;
    next; [| close_shape shape_whisper_failed ].
  assert (Htr : transcribes E env audioFile transcript)
    by (exists bytes, wresp; repeat split; assumption).
  destruct (AI_run env llama_model (llama_request transcript)) as [lresp|e] eqn:Hllama;
    next; [| close_shape shape_llama_failed ].
  destruct (first_choice_content E lresp) as [llmOutput|e] eqn:Hcontent;
    next; [| close_shape shape_llama_failed ].
  assert (Hgen : generates E env transcript llmOutput)
    by (exists lresp; repeat split; assumption).
  destruct (validatePipelineStages E transcript llmOutput) as [[|]|e] eqn:Hcheck;
    next; [| close_shape shape_output_invalid | ].
  2: { destruct (validatePipelineStages_throws E _ _ _ Hcheck) as (m & st & ->).
       next.
       change (Some m) with (message_or Some None (ThrownError (GenericError m st))).
       close_shape shape_output_check_throws. }
  destruct (validatePipelineStages_true E _ _ Hcheck) as (t & o & -> & -> & Ht & Ho).
  destruct (fetch W hume_url (hume_init env (VStr o))) as [resp|e] eqn:Hfetch;
    next; [| close_shape shape_hume_failed ].
  destruct (ok resp) eqn:Hok; next.
  - destruct (json resp) as [ttsData|e] eqn:Hjson;
      next; [| close_shape shape_hume_failed ].
    destruct (has_audio E ttsData) as [[|]|e] eqn:Haudio;
      next; [| close_shape shape_hume_failed | close_shape shape_hume_failed ].
    destruct (first_generation_audio E ttsData) as [audio|e] eqn:Hfirst;
      next; [| close_shape shape_hume_failed ].
    cbn [fst snd get_prop str_eqb]. close_shape shape_success.
  - destruct (text resp) as [errorText|e] eqn:Htxt;
      next; close_shape shape_hume_failed.
Qed.

Lemma run_shape_of (E : Engine) (W : World) (env : Env) (audioFile : File)
      (s' : State) (r : completion ProcessedAudioResult) :
  run E W env audioFile = (s', r) -> run_shape E env audioFile s' r.
Proof.
  intros H. pose proof (run_has_shape E W env audioFile) as Hs.
  rewrite H in Hs. exact Hs.
Qed.

Lemma outcomes_length (log : list PipelineStageResult) (l : list (PipelineStage * bool)) :
  outcomes log = l -> length log = length l.
Proof.
  intros <-. unfold outcomes. symmetry. apply length_map.
Qed.

Lemma first_failing_of_outcomes (log : list PipelineStageResult)
      (l : list (PipelineStage * bool)) :
  outcomes log = l ->
  first_failing_stage log = option_map fst (find (fun p => negb (snd p)) l).
Proof.
  intros <-. unfold first_failing_stage, outcomes.
  induction log as [|x log IH]; simpl.
  - reflexivity.
  - destruct (sr_success x); simpl; [exact IH | reflexivity].
Qed.

(** C1, as the code has it. On success the log has 5 entries, none failed.
    When the run fails tagged [validation], [whisper], [llama] or [hume],
    that stage is the first failed entry and the log length is its index
    plus one.  When the output check fails ("Pipeline validation failed",
    tagged [response-assembly]) the log has 4 entries: validation, whisper
    and llama successes followed by the failed [response-assembly] entry,
    which is its first failed entry; the hume stage was not attempted (no
    Hume call was made). *)
Theorem log_length_by_failing_stage
        (E : Engine) (W : World) (env : Env) (audioFile : File)
        (s' : State) (r : completion ProcessedAudioResult) :
  run E W env audioFile = (s', r) ->
  match r with
  | Normal _ =>
      first_failing_stage (pipelineStages s') = None /\
      length (pipelineStages s') = 5%nat
  | Throw (ThrownError (PipelineError message stage _)) =>
      (stage <> response_assembly ->
       first_failing_stage (pipelineStages s') = Some stage /\
       length (pipelineStages s') = (stage_index stage + 1)%nat) /\
      (stage = response_assembly ->
       message = js "Pipeline validation failed" ->
       first_failing_stage (pipelineStages s') = Some response_assembly /\
       length (pipelineStages s') = 4%nat /\
       outcomes (pipelineStages s') =
         [(validation, true); (whisper, true); (llama, true);
          (response_assembly, false)] /\
       existsb is_hume_call (calls s') = false)
  | Throw _ => False
  end.
Proof.
  intros Hrun. apply run_shape_of in Hrun.
  destruct Hrun; unfold pipeline_error;
    match goal with
    | H : outcomes _ = _ |- _ =>
        pose proof (outcomes_length _ _ H) as Hlen;
        pose proof (first_failing_of_outcomes _ _ H) as Hfirst;
        simpl in Hlen, Hfirst
    end;
    try (split; [intros _; split; assumption | intros Hst; discriminate Hst]).
  - split; [intros Hne; contradiction Hne; reflexivity |].
    intros _ _. repeat split; assumption.
  - split; [intros Hne; contradiction Hne; reflexivity |].
    intros _ Hm. vm_compute in Hm. discriminate Hm.
  - split; assumption.
Qed.

Lemma log_length_by_failing_stage_witness :
  (first_failing_stage
     (pipelineStages
        (fst (run demo_engine (ticking_world (Normal tts_500)) chat_env wav_file)))
     = Some hume /\
   length (pipelineStages
             (fst (run demo_engine (ticking_world (Normal tts_500)) chat_env wav_file)))
     = (stage_index hume + 1)%nat)
  /\
  (first_failing_stage
     (pipelineStages
        (fst (run demo_engine (ticking_world (Normal tts_ok))
                  (env_of (whisper_says (js "")) (llama_says (js "Some response")))
                  wav_file)))
     = Some response_assembly /\
   length (pipelineStages
             (fst (run demo_engine (ticking_world (Normal tts_ok))
                       (env_of (whisper_says (js "")) (llama_says (js "Some response")))
                       wav_file)))
     = 4%nat /\
   outcomes (pipelineStages
               (fst (run demo_engine (ticking_world (Normal tts_ok))
                         (env_of (whisper_says (js "")) (llama_says (js "Some response")))
                         wav_file)))
     = [(validation, true); (whisper, true); (llama, true);
        (response_assembly, false)] /\
   existsb is_hume_call
     (calls (fst (run demo_engine (ticking_world (Normal tts_ok))
                      (env_of (whisper_says (js "")) (llama_says (js "Some response")))
                      wav_file)))
     = false).
Proof.
  split.
  - refine (proj1 (log_length_by_failing_stage demo_engine
                     (ticking_world (Normal tts_500)) chat_env wav_file
                     (fst (run demo_engine (ticking_world (Normal tts_500))
                               chat_env wav_file))
                     (pipeline_error (js "Text-to-speech synthesis failed") hume
                        (Some (js "Hume API error: 500 - Hume TTS service error")))
                     _) _).
    + vm_compute. reflexivity.
    + discriminate.
  - refine (proj2 (log_length_by_failing_stage demo_engine
                     (ticking_world (Normal tts_ok))
                     (env_of (whisper_says (js "")) (llama_says (js "Some response")))
                     wav_file
                     (fst (run demo_engine (ticking_world (Normal tts_ok))
                               (env_of (whisper_says (js ""))
                                       (llama_says (js "Some response")))
                               wav_file))
                     (pipeline_error (js "Pipeline validation failed")
                                     response_assembly None)
                     _) eq_refl eq_refl).
    vm_compute. reflexivity.
Defined.

(** C1 as stated fails: with an empty transcript the run fails at the output
    check, the first (and only) failed entry of the log is
    [response-assembly], whose index is 4, and the log has 4 entries, not
    5. *)
Lemma output_check_log_length_is_not_index_plus_one :
  exists s',
    run demo_engine (ticking_world (Normal tts_ok))
        (env_of (whisper_says (js "")) (llama_says (js "Some response")))
        wav_file =
      (s', pipeline_error (js "Pipeline validation failed") response_assembly None) /\
    first_failing_stage (pipelineStages s') = Some response_assembly /\
    length (pipelineStages s') = 4%nat /\
    length (pipelineStages s') <> (stage_index response_assembly + 1)%nat.
Proof.
  eexists. split; [vm_compute; reflexivity|].
  split; [reflexivity | split; [reflexivity | discriminate]].
Qed.

(** C4. Whatever the file and whatever the injected services do (resolve to
    any data, or reject with any error or thrown value),
    [processVoicePipeline] either returns a [ProcessedAudioResult] carrying
    the complete five-entry log, or rejects with one [PipelineError]
    carrying one stage tag; nothing else escapes. *)
Theorem run_returns_or_raises_PipelineError
        (E : Engine) (W : World) (env : Env) (audioFile : File) :
  exists s',
    (exists result,
        run E W env audioFile = (s', Normal result) /\
        md_pipelineStages (metadata result) = pipelineStages s' /\
        length (md_pipelineStages (metadata result)) = 5%nat) \/
    (exists message stage details,
        run E W env audioFile =
          (s', Throw (ThrownError (PipelineError message stage details)))).
Proof.
  destruct (run E W env audioFile) as [s' r] eqn:Hrun.
  exists s'. apply run_shape_of in Hrun.
  destruct Hrun; unfold pipeline_error;
    try (right; do 3 eexists; reflexivity).
  left. exists result. split; [reflexivity|]. split; [assumption|].
  match goal with
  | H : md_pipelineStages _ = _ |- _ => rewrite H
  end.
  match goal with
  | H : outcomes _ = _ |- _ => apply outcomes_length in H; exact H
  end.
Qed.

(** C8. For every successful run, [transcriptLength] is the length of the
    transcript text that the transcription stage produced, and
    [pipelineStages] lists the five stages validation, whisper, llama, hume,
    response-assembly in this order, each with [success = true]. *)
Theorem success_metadata
        (E : Engine) (W : World) (env : Env) (audioFile : File)
        (s' : State) (result : ProcessedAudioResult) :
  run E W env audioFile = (s', Normal result) ->
  exists t,
    transcribes E env audioFile (VStr t) /\
    transcriptLength (metadata result) = VNum (Z.of_nat (length t)) /\
    outcomes (md_pipelineStages (metadata result)) =
      [(validation, true); (whisper, true); (llama, true); (hume, true);
       (response_assembly, true)].
Proof.
  intros Hrun. apply run_shape_of in Hrun.
  inversion Hrun; subst.
  exists t. split; [assumption|]. split; [assumption|].
  match goal with
  | H : md_pipelineStages _ = _ |- _ => rewrite H
  end.
  assumption.
Qed.

Lemma success_metadata_witness :
  exists s' result,
    run demo_engine (ticking_world (Normal tts_ok))
        chat_env
        wav_file = (s', Normal result) /\
    exists t,
      transcribes demo_engine
        chat_env
        wav_file (VStr t) /\
      transcriptLength (metadata result) = VNum (Z.of_nat (length t)) /\
      outcomes (md_pipelineStages (metadata result)) =
        [(validation, true); (whisper, true); (llama, true); (hume, true);
         (response_assembly, true)].
Proof.
  eexists; eexists. split; [vm_compute; reflexivity|].
  eapply (success_metadata demo_engine (ticking_world (Normal tts_ok))
            chat_env
            wav_file).
  vm_compute. reflexivity.
Defined.

(** Scenario A of the specification: a 1 KB wav file, transcript
    "hello world", response "Hi there!", a valid synthesis payload. *)
Example scenario_A_transcript_length :
  exists s' result,
    run demo_engine (ticking_world (Normal tts_ok))
        chat_env
        wav_file = (s', Normal result) /\
    transcriptLength (metadata result) = VNum 11 /\
    audioBase64 result = VStr (js "QUJD").
Proof.
  eexists; eexists. split; [vm_compute; reflexivity|]. split; reflexivity.
Qed.

(* ================================================================= *)
(** ** The error reporter *)

(** C9, as the code has it. Two reports of the same error with the same
    fallback stage agree on [error], [stage] and [details].  Each
    [timestamp] is the ISO rendering of the clock reading taken by its call,
    and each [requestId] is "req_", a later clock reading, "_" and at most
    nine characters of that call's random draw: the two timestamps (and
    the two ids) are equal whenever the readings (and draws) of the two
    calls are, and nothing makes them differ. *)
Theorem report_twice_fields
        (E : Engine) (W : World) (error : ErrorInstance) (stage : jsstring)
        (s0 : State) :
  exists s' first second,
    report_twice E W error stage s0 = (s', Normal (first, second)) /\
    er_error first = er_error second /\
    er_stage first = er_stage second /\
    er_details first = er_details second /\
    er_timestamp first = toISOString E (Date_now_at W (clock_reads s0)) /\
    er_timestamp second = toISOString E (Date_now_at W (2 + clock_reads s0)) /\
    er_requestId first =
      Some (js "req_" ++ Number_toString (Date_now_at W (1 + clock_reads s0))
            ++ js "_" ++ substr 2 9 (Math_random_at W (random_draws s0))) /\
    er_requestId second =
      Some (js "req_" ++ Number_toString (Date_now_at W (3 + clock_reads s0))
            ++ js "_" ++ substr 2 9 (Math_random_at W (1 + random_draws s0))).
Proof.
  unfold_reporter.
  destruct error as [message stack | message stage' details];
    do 3 eexists; (split; [reflexivity|]); repeat split.
Qed.

(** C9 as stated fails: when the two calls fall in the same millisecond, the
    two records carry the same timestamp (their requestIds then differ by
    the random suffix only). *)
Lemma reports_in_one_millisecond_share_timestamp :
  exists s' first second,
    report_twice demo_engine same_millisecond_world
                 (PipelineError (js "Whisper failed") whisper
                                (Some (js "Network timeout")))
                 (js "whisper") initial_state
      = (s', Normal (first, second)) /\
    er_timestamp first = er_timestamp second /\
    er_requestId first = Some (js "req_1700000000000_0fzyo82mv") /\
    er_requestId second = Some (js "req_1700000000000_1fzyo82mv").
Proof.
  do 3 eexists. split; [vm_compute; reflexivity|]. repeat split.
Qed.

(* ================================================================= *)
(** ** Strings: facts used below *)

Lemma str_eqb_eq (a b : jsstring) : str_eqb a b = true <-> a = b.
Proof.
  revert b. induction a as [|x a IH]; intros [|y b]; simpl;
    try (split; [discriminate | discriminate]); try (split; reflexivity).
  rewrite andb_true_iff, N.eqb_eq, IH. split.
  - intros [-> ->]. reflexivity.
  - intros H. inversion H. split; reflexivity.
Qed.

Lemma includes_In (l : list jsstring) (x : jsstring) :
  includes l x = true <-> In x l.
Proof.
  unfold includes. rewrite existsb_exists. split.
  - intros (y & Hin & Heq). apply str_eqb_eq in Heq. subst. exact Hin.
  - intros Hin. exists x. split; [exact Hin | apply str_eqb_eq; reflexivity].
Qed.

Lemma split_not_nil (sep : N) (s : jsstring) : split sep s <> [].
Proof.
  destruct s as [|c s]; simpl; [discriminate|].
  destruct (N.eqb c sep); [discriminate|].
  destruct (split sep s); discriminate.
Qed.

Lemma split_without_sep (sep : N) (s : jsstring) :
  ~ In sep s -> split sep s = [s].
Proof.
  induction s as [|c s IH]; simpl; intros Hnot; [reflexivity|].
  destruct (N.eqb_spec c sep) as [->|Hne].
  - exfalso. apply Hnot. left. reflexivity.
  - rewrite IH; [reflexivity|]. intros Hin. apply Hnot. right. exact Hin.
Qed.

Lemma pop_cons2 {A} (x y : A) (l : list A) : pop (x :: y :: l) = pop (y :: l).
Proof.
  unfold pop. simpl. destruct (rev l ++ [y]) as [|z r] eqn:Hr.
  - destruct (rev l); discriminate Hr.
  - reflexivity.
Qed.

Lemma pop_cons_nonempty {A} (x : A) (l : list A) : l <> [] -> pop (x :: l) = pop l.
Proof.
  destruct l as [|y l]; [intros H; contradiction H; reflexivity|].
  intros _. apply pop_cons2.
Qed.

Lemma split_head_cons (sep c : N) (s : jsstring) :
  c <> sep ->
  exists h t, split sep s = h :: t /\ split sep (c :: s) = (c :: h) :: t.
Proof.
  intros Hne. simpl. destruct (N.eqb_spec c sep) as [Heq|_]; [contradiction|].
  destruct (split sep s) as [|h t] eqn:Hs.
  - exfalso. exact (split_not_nil sep s Hs).
  - exists h, t. split; reflexivity.
Qed.

Lemma split_single (sep : N) (s h : jsstring) :
  split sep s = [h] -> ~ In sep s.
Proof.
  revert h. induction s as [|c s IH]; simpl; intros h Hs; [intros []|].
  destruct (N.eqb_spec c sep) as [->|Hne].
  - injection Hs as _ Hs. exfalso. exact (split_not_nil sep s Hs).
  - destruct (split sep s) as [|h' t] eqn:Hp; [exfalso; exact (split_not_nil sep s Hp)|].
    injection Hs as _ ->.
    intros [Heq|Hin]; [congruence|]. exact (IH h' eq_refl Hin).
Qed.

(** The last piece of a split is what follows the last separator. *)
Lemma pop_split_app (sep : N) (a b : jsstring) :
  pop (split sep (a ++ sep :: b)) = pop (split sep b).
Proof.
  induction a as [|c a IH].
  - simpl. rewrite N.eqb_refl. apply pop_cons_nonempty, split_not_nil.
  - change ((c :: a) ++ sep :: b) with (c :: (a ++ sep :: b)).
    destruct (N.eq_dec c sep) as [->|Hne].
    + simpl. rewrite N.eqb_refl.
      rewrite pop_cons_nonempty by apply split_not_nil. exact IH.
    + destruct (split_head_cons sep c (a ++ sep :: b) Hne) as (h & t & Hs & Hc).
      rewrite Hc. rewrite Hs in IH.
      destruct t as [|y t].
      * exfalso. apply (split_single sep _ h Hs).
        apply in_or_app. right. left. reflexivity.
      * rewrite pop_cons2. rewrite pop_cons2 in IH. exact IH.
Qed.

(** The first piece of a split is the prefix before the first separator. *)
Lemma split_first_piece (sep : N) (s : jsstring) :
  exists h,
    nth_error (split sep s) 0 = Some h /\
    ~ In sep h /\
    (s = h \/ exists rest, s = h ++ sep :: rest).
Proof.
  induction s as [|c s (h & Hh & Hnot & Hs)].
  - exists []. simpl. split; [reflexivity|]. split; [intros []|left; reflexivity].
  - simpl. destruct (N.eqb_spec c sep) as [->|Hne].
    + exists []. simpl. split; [reflexivity|]. split; [intros []|].
      right. exists s. reflexivity.
    + destruct (split sep s) as [|h' t] eqn:Hp; [discriminate Hh|].
      simpl in Hh. injection Hh as ->.
      exists (c :: h). simpl. split; [reflexivity|]. split.
      * intros [Heq|Hin]; [congruence | exact (Hnot Hin)].
      * destruct Hs as [->|(rest & ->)]; [left; reflexivity|].
        right. exists rest. reflexivity.
Qed.

Lemma trimStart_nil_iff (s : jsstring) :
  trimStart s = [] <-> forallb isWhiteSpace s = true.
Proof.
  induction s as [|c s IH]; simpl; [split; reflexivity|].
  destruct (isWhiteSpace c); simpl; [exact IH|].
  split; discriminate.
Qed.

Lemma trimStart_keeps_text (s : jsstring) :
  has_text (trimStart s) = has_text s.
Proof.
  induction s as [|c s IH]; simpl; [reflexivity|].
  destruct (isWhiteSpace c) eqn:Hc; simpl; [exact IH|].
  rewrite Hc. reflexivity.
Qed.

Lemma has_text_rev (s : jsstring) : has_text (rev s) = has_text s.
Proof.
  unfold has_text. induction s as [|c s IH]; simpl; [reflexivity|].
  rewrite existsb_app, IH. simpl. rewrite orb_false_r. apply orb_comm.
Qed.

Lemma has_text_forallb (s : jsstring) :
  has_text s = negb (forallb isWhiteSpace s).
Proof.
  unfold has_text. induction s as [|c s IH]; simpl; [reflexivity|].
  rewrite IH. destruct (isWhiteSpace c); reflexivity.
Qed.

Lemma trim_keeps_text (s : jsstring) : has_text (trim s) = has_text s.
Proof.
  unfold trim, trimEnd.
  rewrite has_text_rev, trimStart_keeps_text, has_text_rev, trimStart_keeps_text.
  reflexivity.
Qed.

Lemma trimStart_starts_with_text (s : jsstring) (c : N) (r : jsstring) :
  trimStart s = c :: r -> isWhiteSpace c = false.
Proof.
  induction s as [|x s IH]; simpl; [discriminate|].
  destruct (isWhiteSpace x) eqn:Hx; [exact IH|].
  intros H. injection H as <- _. exact Hx.
Qed.

(** [trim s] is empty exactly when [s] has nothing but white space. *)
Lemma trim_nil_iff (s : jsstring) : trim s = [] <-> has_text s = false.
Proof.
  rewrite <- (trim_keeps_text s). split.
  - intros ->. reflexivity.
  - unfold trim, trimEnd.
    destruct (trimStart (rev (trimStart s))) as [|c r] eqn:Ht; [reflexivity|].
    intros Hno. exfalso.
    pose proof (trimStart_starts_with_text _ _ _ Ht) as Hc.
    rewrite has_text_rev in Hno. unfold has_text in Hno. simpl in Hno.
    rewrite Hc in Hno. discriminate Hno.
Qed.

(* ================================================================= *)
(** ** More on input validation (model.ts) *)

Lemma valid_characterisation (E : Engine) (file : File) :
  valid (validateAudioFile E file) = true <->
  file_size file <= MAX_FILE_SIZE /\
  (isValidMimeType file = true \/ hasValidExtension E file = true).
Proof.
  unfold validateAudioFile.
  destruct (MAX_FILE_SIZE <? file_size file) eqn:Hsize.
  - apply Z.ltb_lt in Hsize. simpl. split; [discriminate|]. intros [Hle _]. lia.
  - apply Z.ltb_ge in Hsize.
    destruct (isValidMimeType file), (hasValidExtension E file); simpl;
      (split; [intros H; first [discriminate H | split; [exact Hsize | auto]]
              | intros [_ [H|H]]; first [discriminate H | reflexivity]]).
Qed.

(** X1. [validateAudioFile] accepts a file exactly when its size is at most
    25 MiB and its media type or its file extension is supported. *)
Theorem validateAudioFile_valid_iff (E : Engine) (file : File) :
  valid (validateAudioFile E file) = true <->
  file_size file <= MAX_FILE_SIZE /\
  (isValidMimeType file = true \/ hasValidExtension E file = true).
Proof.
  exact (valid_characterisation E file).
Qed.

Lemma valid_has_no_error (E : Engine) (file : File) :
  valid (validateAudioFile E file) = true ->
  vr_error (validateAudioFile E file) = None.
Proof.
  unfold validateAudioFile.
  destruct (MAX_FILE_SIZE <? file_size file);
    [| destruct (negb (isValidMimeType file) && negb (hasValidExtension E file))];
    simpl; intros H; first [discriminate H | reflexivity].
Qed.

(** X2. A file within the size limit whose media type and extension are both
    unsupported is rejected with [unsupportedFormat = true],
    [maxSizeExceeded = false], its size and type reported, and the message
    listing the supported formats. *)
Theorem validateAudioFile_unsupported_format (E : Engine) (file : File) :
  file_size file <= MAX_FILE_SIZE ->
  isValidMimeType file = false ->
  hasValidExtension E file = false ->
  validateAudioFile E file =
    {| valid := false;
       vr_error := Some (js "Unsupported file format. Supported formats: wav, mp3, m4a, webm, mp4, mpeg, mpga");
       vr_details := Some {| fileSize := Some (file_size file);
                             fileType := Some (file_type file);
                             maxSizeExceeded := Some false;
                             unsupportedFormat := Some true |} |}.
Proof.
  intros Hsize Hmime Hext. unfold validateAudioFile.
  apply Z.ltb_ge in Hsize. rewrite Hsize, Hmime, Hext. reflexivity.
Qed.

Lemma validateAudioFile_unsupported_format_witness :
  validateAudioFile demo_engine small_pdf_file =
    {| valid := false;
       vr_error := Some (js "Unsupported file format. Supported formats: wav, mp3, m4a, webm, mp4, mpeg, mpga");
       vr_details := Some {| fileSize := Some 7;
                             fileType := Some (js "application/pdf");
                             maxSizeExceeded := Some false;
                             unsupportedFormat := Some true |} |}.
Proof.
  apply (validateAudioFile_unsupported_format demo_engine small_pdf_file).
  - discriminate.
  - reflexivity.
  - reflexivity.
Defined.

(** X3. Whatever the file, the result of [validateAudioFile] carries details
    with the observed size and type; it has an error message exactly when
    it is invalid; and the two flags are never raised together, both being
    down exactly for a valid file. *)
Theorem validateAudioFile_report_invariant (E : Engine) (file : File) :
  exists d,
    vr_details (validateAudioFile E file) = Some d /\
    fileSize d = Some (file_size file) /\
    fileType d = Some (file_type file) /\
    (vr_error (validateAudioFile E file) = None <->
     valid (validateAudioFile E file) = true) /\
    (valid (validateAudioFile E file) = true <->
     maxSizeExceeded d = Some false /\ unsupportedFormat d = Some false) /\
    ~ (maxSizeExceeded d = Some true /\ unsupportedFormat d = Some true).
Proof.
  unfold validateAudioFile.
  destruct (MAX_FILE_SIZE <? file_size file);
    [| destruct (negb (isValidMimeType file) && negb (hasValidExtension E file))];
    simpl; eexists; (split; [reflexivity|]); simpl;
    repeat split; try discriminate; try reflexivity;
    try (intros [H1 H2]; discriminate); try (intros [H1 H2]; discriminate H2).
Qed.

Lemma extension_after_last_dot (E : Engine) (file : File) (ext : jsstring) :
  ~ In 46%N ext ->
  (toLowerCase E (file_name file) = ext \/
   exists stem, toLowerCase E (file_name file) = stem ++ 46%N :: ext) ->
  fileExtension E file = Some ext.
Proof.
  intros Hnodot Hname. unfold fileExtension.
  destruct Hname as [-> | (stem & ->)].
  - rewrite (split_without_sep _ _ Hnodot). reflexivity.
  - rewrite pop_split_app, (split_without_sep _ _ Hnodot). reflexivity.
Qed.

(** X4. The extension [validateAudioFile] looks at is what follows the last
    dot of the lower-cased file name, and the whole lower-cased name when
    it has no dot. *)
Theorem fileExtension_is_last_piece (E : Engine) (file : File) (ext : jsstring) :
  ~ In 46%N ext ->
  (toLowerCase E (file_name file) = ext \/
   exists stem, toLowerCase E (file_name file) = stem ++ 46%N :: ext) ->
  fileExtension E file = Some ext.
Proof.
  exact (extension_after_last_dot E file ext).
Qed.

Lemma fileExtension_is_last_piece_witness :
  fileExtension demo_engine
    {| file_size := 1; file_type := js ""; file_name := js "Clip.final.WAV";
       file_lastModified := 0; file_arrayBuffer := Normal [] |} = Some (js "wav").
Proof.
  apply (fileExtension_is_last_piece demo_engine _ (js "wav")).
  - simpl. intros [H|[H|[H|[]]]]; discriminate H.
  - right. exists (js "clip.final"). reflexivity.
Defined.

Lemma supported_extension_shape (ext : jsstring) :
  In ext SUPPORTED_EXTENSIONS -> ~ In 46%N ext /\ ext <> [].
Proof.
  simpl. intros H.
  repeat (destruct H as [<-|H];
          [split; [simpl; intuition discriminate | discriminate]|]).
  destruct H.
Qed.

(** X5. A file within the size limit is accepted on its extension alone:
    when the lower-cased name ends in a dot followed by a supported
    extension, or is just a supported extension, the media type is not
    looked at. *)
Theorem validateAudioFile_accepts_by_extension
        (E : Engine) (file : File) (ext : jsstring) :
  file_size file <= MAX_FILE_SIZE ->
  In ext SUPPORTED_EXTENSIONS ->
  (toLowerCase E (file_name file) = ext \/
   exists stem, toLowerCase E (file_name file) = stem ++ 46%N :: ext) ->
  valid (validateAudioFile E file) = true.
Proof.
  intros Hsize Hin Hname.
  destruct (supported_extension_shape ext Hin) as [Hnodot Hne].
  apply valid_characterisation. split; [exact Hsize|]. right.
  unfold hasValidExtension.
  rewrite (extension_after_last_dot E file ext Hnodot Hname).
  destruct ext as [|c ext]; [contradiction Hne; reflexivity|].
  apply includes_In. exact Hin.
Qed.

Lemma validateAudioFile_accepts_by_extension_witness :
  isValidMimeType untyped_mp3_file = false /\
  valid (validateAudioFile demo_engine untyped_mp3_file) = true.
Proof.
  split; [reflexivity|].
  apply (validateAudioFile_accepts_by_extension demo_engine untyped_mp3_file (js "mp3")).
  - discriminate.
  - right. left. reflexivity.
  - right. exists (js "memo"). reflexivity.
Defined.

(* ================================================================= *)
(** ** More on the output check (model.ts) *)

Lemma is_blank_VStr (E : Engine) (t : jsstring) :
  is_blank E (VStr t) = Normal (negb (has_text t)).
Proof.
  unfold is_blank. destruct t as [|c t]; [reflexivity|].
  cbn [truthy negb]. f_equal.
  destruct (has_text (c :: t)) eqn:Ht.
  - destruct (trim (c :: t)) eqn:Htrim; [|reflexivity].
    apply trim_nil_iff in Htrim. congruence.
  - apply trim_nil_iff in Ht. rewrite Ht. reflexivity.
Qed.

(** X6. On two strings [validatePipelineStages] never raises, and answers
    [true] exactly when each of them has a code unit that is not white
    space. *)
Theorem validatePipelineStages_on_strings (E : Engine) (t o : jsstring) :
  validatePipelineStages E (VStr t) (VStr o) = Normal (has_text t && has_text o).
Proof.
  unfold validatePipelineStages. rewrite !is_blank_VStr.
  destruct (has_text t), (has_text o); reflexivity.
Qed.

(* ================================================================= *)
(** ** More on runs of the pipeline (controller.ts) *)

(** One step of the case analysis of a run: the next result the controller
    branches on.  A passed output check turns both texts into strings, a
    raising one into the engine's TypeError. *)
Ltac pipeline_step :=
  match goal with
  | |- context [get_prop ?E (VStr ?t) (js "length")] =>
      change (get_prop E (VStr t) (js "length"))
        with (Normal (A:=value) (VNum (Z.of_nat (length t))))
  | |- context [match validatePipelineStages ?E ?t ?o with _ => _ end] =>
      let H := fresh "Hcheck" in
      destruct (validatePipelineStages E t o) as [[|]|?] eqn:H;
      [ destruct (validatePipelineStages_true E _ _ H) as (? & ? & -> & -> & ? & ?)
      |
      | destruct (validatePipelineStages_throws E _ _ _ H) as (? & ? & ->) ]
  | |- context [match ?x with _ => _ end] =>
      lazymatch x with
      | valid _ => destruct x eqn:?
      | ok _ => destruct x eqn:?
      | file_arrayBuffer _ => destruct x eqn:?
      | AI_run _ _ _ => destruct x eqn:?
      | get_prop _ _ _ => destruct x eqn:?
      | first_choice_content _ _ => destruct x eqn:?
      | fetch _ _ _ => destruct x eqn:?
      | text _ => destruct x eqn:?
      | json _ => destruct x eqn:?
      | has_audio _ _ => destruct x as [[|]|?] eqn:?
      | first_generation_audio _ _ => destruct x eqn:?
      end
  end; cbv beta iota.

Lemma invalid_has_message (E : Engine) (file : File) :
  valid (validateAudioFile E file) = false ->
  exists c m, vr_error (validateAudioFile E file) = Some (c :: m).
Proof.
  unfold validateAudioFile.
  destruct (MAX_FILE_SIZE <? file_size file);
    [| destruct (negb (isValidMimeType file) && negb (hasValidExtension E file))];
    simpl; intros H; try discriminate H; eexists; eexists; reflexivity.
Qed.

(** X7. When validation rejects the file, the run fails tagged [validation]
    with the validator's own message (the fallback "Validation failed" is
    never used), the log holds the one failed validation entry carrying
    that message, and no outside call is made: the file is not read, no
    model is run, nothing is fetched. *)
Theorem invalid_file_stops_before_any_call
        (E : Engine) (W : World) (env : Env) (audioFile : File) :
  valid (validateAudioFile E audioFile) = false ->
  exists s' message,
    vr_error (validateAudioFile E audioFile) = Some message /\
    run E W env audioFile = (s', pipeline_error message validation None) /\
    pipelineStages s' =
      [{| sr_stage := validation; sr_success := false;
          sr_durationMs := Date_now_at W 2 - Date_now_at W 1;
          sr_error := Some message |}] /\
    calls s' = [].
Proof.
  intros Hvalid.
  destruct (invalid_has_message E audioFile Hvalid) as (c & m & Hmsg).
  unfold pipeline_error. unfold_pipeline. rewrite Hvalid, Hmsg. cbv beta iota.
  eexists; eexists. split; [reflexivity|]. split; [reflexivity|].
  split; reflexivity.
Qed.

Lemma invalid_file_stops_before_any_call_witness :
  exists s' message,
    vr_error (validateAudioFile demo_engine big_text_file) = Some message /\
    run demo_engine (ticking_world (Normal tts_ok)) chat_env big_text_file =
      (s', pipeline_error message validation None) /\
    pipelineStages s' =
      [{| sr_stage := validation; sr_success := false;
          sr_durationMs := Date_now_at (ticking_world (Normal tts_ok)) 2
                           - Date_now_at (ticking_world (Normal tts_ok)) 1;
          sr_error := Some message |}] /\
    calls s' = [].
Proof.
  apply (invalid_file_stops_before_any_call demo_engine
           (ticking_world (Normal tts_ok)) chat_env big_text_file).
  reflexivity.
Defined.

(** X8. Whatever makes the transcription stage fail (reading the file
    rejects, the Whisper call rejects, or the response is [null] or
    [undefined]), the run fails tagged [whisper]; the details of the
    [PipelineError] are the message of the cause when it is an [Error] and
    are absent otherwise; the failed whisper entry of the log carries that
    message, or "Unknown error"; Llama and Hume are not called. *)
Theorem transcription_failure_report
        (E : Engine) (W : World) (env : Env) (audioFile : File) (t : thrown) :
  valid (validateAudioFile E audioFile) = true ->
  transcription_fails E env audioFile t ->
  exists s',
    run E W env audioFile =
      (s', pipeline_error (js "Whisper transcription failed") whisper
                          (thrown_message t)) /\
    pipelineStages s' =
      [{| sr_stage := validation; sr_success := true;
          sr_durationMs := Date_now_at W 2 - Date_now_at W 1;
          sr_error := None |};
       {| sr_stage := whisper; sr_success := false;
          sr_durationMs := Date_now_at W 4 - Date_now_at W 3;
          sr_error := Some (logged_message t) |}] /\
    existsb is_llama_call (calls s') = false /\
    existsb is_hume_call (calls s') = false.
Proof.
  intros Hvalid Hfail.
  pose proof (valid_has_no_error E audioFile Hvalid) as Hnone.
  unfold pipeline_error. unfold_pipeline. rewrite Hvalid, Hnone. cbv beta iota.
  destruct Hfail as [Hbuf | (bytes & Hbuf & [Hrun | (resp & Hrun & Htext)])];
    rewrite Hbuf; cbv beta iota; try (rewrite Hrun; cbv beta iota);
    try rewrite Htext; destruct t; eexists; repeat split.
Qed.

Lemma transcription_failure_report_witness :
  exists s',
    run demo_engine (ticking_world (Normal tts_ok)) null_whisper_env wav_file =
      (s', pipeline_error (js "Whisper transcription failed") whisper
             (Some (js "Cannot read properties of null (reading 'text')"))) /\
    pipelineStages s' =
      [{| sr_stage := validation; sr_success := true;
          sr_durationMs := 1; sr_error := None |};
       {| sr_stage := whisper; sr_success := false;
          sr_durationMs := 1;
          sr_error := Some (js "Cannot read properties of null (reading 'text')") |}] /\
    existsb is_llama_call (calls s') = false /\
    existsb is_hume_call (calls s') = false.
Proof.
  apply (transcription_failure_report demo_engine (ticking_world (Normal tts_ok))
           null_whisper_env wav_file
           (engine_TypeError demo_engine VNull (js "text"))).
  - reflexivity.
  - right. exists [82; 73; 70; 70]. split; [reflexivity|].
    right. exists VNull. split; reflexivity.
Defined.

(** X9. Whatever makes the response-generation stage fail (the Llama call
    rejects, or its response has no [choices[0].message] to read), the run
    fails tagged [llama] with the cause's message as details; the log is
    validation and whisper successes followed by the failed llama entry;
    the Llama call was made with the transcript as user content; Hume is
    not called. *)
Theorem generation_failure_report
        (E : Engine) (W : World) (env : Env) (audioFile : File)
        (transcript : value) (t : thrown) :
  valid (validateAudioFile E audioFile) = true ->
  transcribes E env audioFile transcript ->
  generation_fails E env transcript t ->
  exists s',
    run E W env audioFile =
      (s', pipeline_error (js "LLM processing failed") llama (thrown_message t)) /\
    outcomes (pipelineStages s') =
      [(validation, true); (whisper, true); (llama, false)] /\
    nth_error (pipelineStages s') 2 =
      Some {| sr_stage := llama; sr_success := false;
              sr_durationMs := Date_now_at W 6 - Date_now_at W 5;
              sr_error := Some (logged_message t) |} /\
    In (CallAI llama_model (llama_request transcript)) (calls s') /\
    existsb is_hume_call (calls s') = false.
Proof.
  intros Hvalid (bytes & wresp & Hbuf & Hrun & Htext) Hfail.
  unfold pipeline_error. unfold_pipeline.
  rewrite Hvalid, Hbuf. cbv beta iota. rewrite Hrun. cbv beta iota. rewrite Htext.
  destruct Hfail as [Hllama | (lresp & Hllama & Hcontent)];
    rewrite Hllama; cbv beta iota; try rewrite Hcontent;
    destruct t; eexists; repeat split; simpl; auto.
Qed.

Lemma generation_failure_report_witness :
  exists s',
    run demo_engine (ticking_world (Normal tts_ok)) no_choices_env wav_file =
      (s', pipeline_error (js "LLM processing failed") llama
             (Some (js "Cannot read properties of undefined (reading 'message')"))) /\
    outcomes (pipelineStages s') =
      [(validation, true); (whisper, true); (llama, false)] /\
    nth_error (pipelineStages s') 2 =
      Some {| sr_stage := llama; sr_success := false;
              sr_durationMs := 1;
              sr_error := Some (js "Cannot read properties of undefined (reading 'message')") |} /\
    In (CallAI llama_model (llama_request (VStr (js "hello world")))) (calls s') /\
    existsb is_hume_call (calls s') = false.
Proof.
  apply (generation_failure_report demo_engine (ticking_world (Normal tts_ok))
           no_choices_env wav_file (VStr (js "hello world"))
           (engine_TypeError demo_engine VUndefined (js "message"))).
  - reflexivity.
  - eexists; eexists; repeat split.
  - right. eexists. split; reflexivity.
Defined.

(** X10. When the synthesis stage fails in transport (the [fetch] rejects,
    or reading the body of the response rejects), the run fails tagged
    [hume] with the cause's message as details, and the log ends with the
    failed hume entry carrying that message. *)
Theorem synthesis_transport_failure_report
        (E : Engine) (W : World) (env : Env) (audioFile : File)
        (transcript llmOutput : value) (t : thrown) :
  valid (validateAudioFile E audioFile) = true ->
  transcribes E env audioFile transcript ->
  generates E env transcript llmOutput ->
  validatePipelineStages E transcript llmOutput = Normal true ->
  synthesis_transport_fails W env llmOutput t ->
  exists s',
    run E W env audioFile =
      (s', pipeline_error (js "Text-to-speech synthesis failed") hume
                          (thrown_message t)) /\
    outcomes (pipelineStages s') =
      [(validation, true); (whisper, true); (llama, true); (hume, false)] /\
    nth_error (pipelineStages s') 3 =
      Some {| sr_stage := hume; sr_success := false;
              sr_durationMs := Date_now_at W 8 - Date_now_at W 7;
              sr_error := Some (logged_message t) |}.
Proof.
  intros Hvalid (bytes & wresp & Hbuf & Hrun & Htext) (lresp & Hllama & Hcontent)
         Hcheck Hfail.
  unfold pipeline_error. unfold_pipeline.
  rewrite Hvalid, Hbuf. cbv beta iota. rewrite Hrun. cbv beta iota.
  rewrite Htext, Hllama. cbv beta iota. rewrite Hcontent, Hcheck. cbv beta iota.
  destruct Hfail as [Hfetch | (resp & Hfetch & [[Hok Hbody] | [Hok Hbody]])];
    rewrite Hfetch; cbv beta iota; try (rewrite Hok, Hbody; cbv beta iota);
    destruct t; eexists; repeat split.
Qed.

Lemma synthesis_transport_failure_report_witness :
  exists s',
    run demo_engine (ticking_world (Throw network_error)) chat_env wav_file =
      (s', pipeline_error (js "Text-to-speech synthesis failed") hume
             (Some (js "fetch failed"))) /\
    outcomes (pipelineStages s') =
      [(validation, true); (whisper, true); (llama, true); (hume, false)] /\
    nth_error (pipelineStages s') 3 =
      Some {| sr_stage := hume; sr_success := false;
              sr_durationMs := 1;
              sr_error := Some (js "fetch failed") |}.
Proof.
  apply (synthesis_transport_failure_report demo_engine
           (ticking_world (Throw network_error)) chat_env wav_file
           (VStr (js "hello world")) (VStr (js "Hi there!")) network_error).
  - reflexivity.
  - eexists; eexists; repeat split.
  - eexists; repeat split.
  - reflexivity.
  - left. reflexivity.
Defined.

Lemma audible_first_generation (E : Engine) (ttsData audio : value) :
  has_audio E ttsData = Normal true ->
  first_generation_audio E ttsData = Normal audio ->
  truthy audio = true.
Proof.
  unfold has_audio, first_generation_audio.
  destruct (get_prop E ttsData (js "generations")) as [g|]; [|discriminate].
  destruct (negb (truthy g)); [discriminate|].
  destruct (get_prop E g (js "length")) as [len|]; [|discriminate].
  destruct (gt_zero E len) as [[|]|]; try discriminate.
  destruct (get_index0 E g) as [g0|]; [|discriminate].
  unfold get_prop_opt.
  destruct g0; simpl; try discriminate;
    match goal with
    | |- context [if ?b then _ else _] => destruct b
    | _ => idtac
    end;
    intros H1 H2; injection H1 as H1; injection H2 as H2; subst; exact H1.
Qed.

(** X11. A successful run made exactly five outside calls, in this order:
    the file was read, Whisper was run on its bytes, Llama was run with the
    transcript as the user message, the Hume endpoint was fetched with
    Llama's output as the utterance text and the [env]'s API key, and the
    JSON body was read ([text()] never).  The transcript and Llama's output
    are strings; the returned [audioBase64] is the [audio] of the first
    generation, and it is truthy (so never the empty string). *)
Theorem success_trace
        (E : Engine) (W : World) (env : Env) (audioFile : File)
        (s' : State) (result : ProcessedAudioResult) :
  run E W env audioFile = (s', Normal result) ->
  exists bytes t o ttsResponse ttsData,
    calls s' =
      [CallArrayBuffer;
       CallAI whisper_model (whisper_request bytes);
       CallAI llama_model (llama_request (VStr t));
       CallFetch hume_url (hume_init env (VStr o));
       CallJson] /\
    file_arrayBuffer audioFile = Normal bytes /\
    transcribes E env audioFile (VStr t) /\
    generates E env (VStr t) (VStr o) /\
    fetch W hume_url (hume_init env (VStr o)) = Normal ttsResponse /\
    ok ttsResponse = true /\
    json ttsResponse = Normal ttsData /\
    first_generation_audio E ttsData = Normal (audioBase64 result) /\
    truthy (audioBase64 result) = true.
Proof.
  unfold_pipeline. repeat pipeline_step; try discriminate.
  intros Heq. inversion Heq; subst; clear Heq. cbn [audioBase64].
  do 5 eexists. split; [reflexivity|]. split; [reflexivity|].
  split; [eexists; eexists; repeat split; eassumption|].
  split; [eexists; repeat split; eassumption|].
  split; [eassumption|]. split; [assumption|]. split; [eassumption|].
  split; [assumption|].
  eapply audible_first_generation; eassumption.
Qed.

Lemma success_trace_witness :
  exists s' result bytes t o ttsResponse ttsData,
    run demo_engine (ticking_world (Normal tts_ok)) chat_env wav_file
      = (s', Normal result) /\
    calls s' =
      [CallArrayBuffer;
       CallAI whisper_model (whisper_request bytes);
       CallAI llama_model (llama_request (VStr t));
       CallFetch hume_url (hume_init chat_env (VStr o));
       CallJson] /\
    file_arrayBuffer wav_file = Normal bytes /\
    transcribes demo_engine chat_env wav_file (VStr t) /\
    generates demo_engine chat_env (VStr t) (VStr o) /\
    fetch (ticking_world (Normal tts_ok)) hume_url (hume_init chat_env (VStr o))
      = Normal ttsResponse /\
    ok ttsResponse = true /\
    json ttsResponse = Normal ttsData /\
    first_generation_audio demo_engine ttsData = Normal (audioBase64 result) /\
    truthy (audioBase64 result) = true.
Proof.
  eexists; eexists.
  assert (Hrun : run demo_engine (ticking_world (Normal tts_ok)) chat_env wav_file
                 = (fst (run demo_engine (ticking_world (Normal tts_ok)) chat_env wav_file),
                    Normal {| audioBase64 := VStr (js "QUJD");
                              metadata :=
                                {| originalDuration := Some 1;
                                   transcriptLength := VNum 11;
                                   processingTimeMs := 11;
                                   md_pipelineStages :=
                                     pipelineStages
                                       (fst (run demo_engine (ticking_world (Normal tts_ok))
                                                 chat_env wav_file)) |} |}))
    by (vm_compute; reflexivity).
  destruct (success_trace demo_engine (ticking_world (Normal tts_ok)) chat_env
              wav_file _ _ Hrun)
    as (bytes & t & o & resp & data & H).
  exists bytes, t, o, resp, data. split; [exact Hrun | exact H].
Defined.

(** X12. In the metadata of a successful run, [processingTimeMs] is the
    last reading of the clock minus the first, twelve readings being taken
    in all; [originalDuration] is absent for an empty file and otherwise
    the file size in units of 16000 bytes, rounded up. *)
Theorem success_timing
        (E : Engine) (W : World) (env : Env) (audioFile : File)
        (s' : State) (result : ProcessedAudioResult) :
  run E W env audioFile = (s', Normal result) ->
  clock_reads s' = 12%nat /\
  processingTimeMs (metadata result) = Date_now_at W 11 - Date_now_at W 0 /\
  (file_size audioFile <= 0 -> originalDuration (metadata result) = None) /\
  (0 < file_size audioFile ->
   exists d, originalDuration (metadata result) = Some d /\
             16000 * (d - 1) < file_size audioFile <= 16000 * d).
Proof.
  unfold_pipeline. repeat pipeline_step; try discriminate.
  intros Heq. inversion Heq; subst; clear Heq.
  cbn [metadata processingTimeMs originalDuration extractAudioMetadata am_size].
  split; [reflexivity|]. split; [reflexivity|].
  destruct (0 <? file_size audioFile) eqn:Hpos.
  - apply Z.ltb_lt in Hpos. split; [lia|]. intros _.
    eexists. split; [reflexivity|].
    pose proof (Z.div_mod (- file_size audioFile) 16000 ltac:(lia)) as Hdm.
    pose proof (Z.mod_pos_bound (- file_size audioFile) 16000 ltac:(lia)) as Hb.
    lia.
  - apply Z.ltb_ge in Hpos. split; [reflexivity | lia].
Qed.

Lemma success_timing_witness :
  exists s' result,
    run demo_engine (ticking_world (Normal tts_ok)) chat_env wav_file
      = (s', Normal result) /\
    clock_reads s' = 12%nat /\
    processingTimeMs (metadata result) = 11 /\
    (file_size wav_file <= 0 -> originalDuration (metadata result) = None) /\
    (0 < file_size wav_file ->
     exists d, originalDuration (metadata result) = Some d /\
               16000 * (d - 1) < file_size wav_file <= 16000 * d).
Proof.
  eexists; eexists.
  assert (Hrun : run demo_engine (ticking_world (Normal tts_ok)) chat_env wav_file
                 = (fst (run demo_engine (ticking_world (Normal tts_ok)) chat_env wav_file),
                    Normal {| audioBase64 := VStr (js "QUJD");
                              metadata :=
                                {| originalDuration := Some 1;
                                   transcriptLength := VNum 11;
                                   processingTimeMs := 11;
                                   md_pipelineStages :=
                                     pipelineStages
                                       (fst (run demo_engine (ticking_world (Normal tts_ok))
                                                 chat_env wav_file)) |} |}))
    by (vm_compute; reflexivity).
  split; [exact Hrun|].
  exact (success_timing demo_engine (ticking_world (Normal tts_ok)) chat_env
           wav_file _ _ Hrun).
Defined.

(** X13. In every run, successful or not, each logged duration is 0 or the
    difference of two consecutive clock readings; so when the clock never
    goes back no logged duration is negative, and in a successful run the
    logged durations add up to at most [processingTimeMs]. *)
Theorem durations_follow_the_clock
        (E : Engine) (W : World) (env : Env) (audioFile : File)
        (s' : State) (r : completion ProcessedAudioResult) :
  run E W env audioFile = (s', r) ->
  Forall (timed W) (pipelineStages s') /\
  (monotone_clock W ->
   Forall (fun x => 0 <= sr_durationMs x) (pipelineStages s') /\
   forall result, r = Normal result ->
     total_duration (pipelineStages s') <= processingTimeMs (metadata result)).
Proof.
  assert (Hstep : monotone_clock W -> forall k, Date_now_at W k <= Date_now_at W (S k)).
  { intros Hm k. apply Hm. lia. }
  unfold_pipeline. repeat pipeline_step;
    intros Heq; inversion Heq; subst; clear Heq;
    (split;
     [ repeat (apply Forall_cons;
               [first [ right; eexists; reflexivity | left; reflexivity ]|]);
       apply Forall_nil
     | intros Hm;
       pose proof (Hstep Hm 0%nat); pose proof (Hstep Hm 1%nat);
       pose proof (Hstep Hm 2%nat); pose proof (Hstep Hm 3%nat);
       pose proof (Hstep Hm 4%nat); pose proof (Hstep Hm 5%nat);
       pose proof (Hstep Hm 6%nat); pose proof (Hstep Hm 7%nat);
       pose proof (Hstep Hm 8%nat); pose proof (Hstep Hm 9%nat);
       pose proof (Hstep Hm 10%nat);
       split;
       [ repeat (apply Forall_cons; [cbn [sr_durationMs]; lia|]); apply Forall_nil
       | intros result Hres; try discriminate Hres;
         injection Hres as <-;
         cbn [total_duration fold_right sr_durationMs metadata processingTimeMs];
         lia ] ]).
Qed.

Lemma ticking_world_is_monotone (response : completion Response) :
  monotone_clock (ticking_world response).
Proof.
  intros i j Hij. cbn [Date_now_at ticking_world]. lia.
Qed.

Lemma durations_follow_the_clock_witness :
  Forall (fun x => 0 <= sr_durationMs x)
         (pipelineStages
            (fst (run demo_engine (ticking_world (Normal tts_500)) chat_env wav_file))).
Proof.
  refine (proj1 (proj2 (durations_follow_the_clock demo_engine
                          (ticking_world (Normal tts_500)) chat_env wav_file
                          (fst (run demo_engine (ticking_world (Normal tts_500))
                                    chat_env wav_file))
                          (snd (run demo_engine (ticking_world (Normal tts_500))
                                    chat_env wav_file))
                          _)
                       (ticking_world_is_monotone (Normal tts_500)))).
  vm_compute. reflexivity.
Defined.

(** X14. In every run the log lists stages in pipeline order, each at most
    once, and every entry before the last one is a success: the run stops
    at the first failure it records. *)
Theorem log_is_ordered_and_stops_at_failure
        (E : Engine) (W : World) (env : Env) (audioFile : File)
        (s' : State) (r : completion ProcessedAudioResult) :
  run E W env audioFile = (s', r) ->
  strictly_increasing (map (fun x => stage_index (sr_stage x)) (pipelineStages s')) = true /\
  forallb sr_success (removelast (pipelineStages s')) = true.
Proof.
  unfold_pipeline. repeat pipeline_step;
    intros Heq; inversion Heq; subst; clear Heq; split; reflexivity.
Qed.

Lemma log_is_ordered_and_stops_at_failure_witness :
  strictly_increasing
    (map (fun x => stage_index (sr_stage x))
         (pipelineStages
            (fst (run demo_engine (ticking_world (Normal tts_500)) chat_env wav_file))))
    = true /\
  forallb sr_success
    (removelast
       (pipelineStages
          (fst (run demo_engine (ticking_world (Normal tts_500)) chat_env wav_file))))
    = true.
Proof.
  refine (log_is_ordered_and_stops_at_failure demo_engine
            (ticking_world (Normal tts_500)) chat_env wav_file
            (fst (run demo_engine (ticking_world (Normal tts_500)) chat_env wav_file))
            (snd (run demo_engine (ticking_world (Normal tts_500)) chat_env wav_file))
            _).
  vm_compute. reflexivity.
Defined.

Lemma is_blank_of_truthy_non_string (E : Engine) (v : value) :
  truthy v = true ->
  (forall s, v <> VStr s) ->
  is_blank E v = Throw (engine_TypeError E v (js "trim")).
Proof.
  intros Ht Hns. unfold is_blank. rewrite Ht. simpl.
  destruct v; try reflexivity. exfalso. apply (Hns s). reflexivity.
Qed.

(** X15. When the transcript is a truthy value that is not a string (a
    number, an object), the output check raises a TypeError on [trim]; the
    run then fails with "Unknown pipeline error" tagged [response-assembly],
    the TypeError's message as details, and the log keeps its three
    successes: no failed entry is recorded.  Hume is not called. *)
Theorem non_string_transcript_is_an_unknown_error
        (E : Engine) (W : World) (env : Env) (audioFile : File)
        (transcript llmOutput : value) :
  valid (validateAudioFile E audioFile) = true ->
  transcribes E env audioFile transcript ->
  generates E env transcript llmOutput ->
  truthy transcript = true ->
  (forall s, transcript <> VStr s) ->
  exists s',
    run E W env audioFile =
      (s', pipeline_error (js "Unknown pipeline error") response_assembly
             (Some (TypeError_message E transcript (js "trim")))) /\
    outcomes (pipelineStages s') =
      [(validation, true); (whisper, true); (llama, true)] /\
    first_failing_stage (pipelineStages s') = None /\
    existsb is_hume_call (calls s') = false.
Proof.
  intros Hvalid (bytes & wresp & Hbuf & Hrun & Htext) (lresp & Hllama & Hcontent)
         Htruthy Hns.
  assert (Hcheck : validatePipelineStages E transcript llmOutput
                   = Throw (engine_TypeError E transcript (js "trim"))).
  { unfold validatePipelineStages.
    rewrite (is_blank_of_truthy_non_string E transcript Htruthy Hns). reflexivity. }
  unfold pipeline_error. unfold_pipeline.
  rewrite Hvalid, Hbuf. cbv beta iota. rewrite Hrun. cbv beta iota.
  rewrite Htext, Hllama. cbv beta iota. rewrite Hcontent, Hcheck.
  eexists. repeat split.
Qed.

Lemma non_string_transcript_is_an_unknown_error_witness :
  exists s',
    run demo_engine (ticking_world (Normal tts_ok)) numeric_text_env wav_file =
      (s', pipeline_error (js "Unknown pipeline error") response_assembly
             (Some (js "trim is not a function"))) /\
    outcomes (pipelineStages s') =
      [(validation, true); (whisper, true); (llama, true)] /\
    first_failing_stage (pipelineStages s') = None /\
    existsb is_hume_call (calls s') = false.
Proof.
  apply (non_string_transcript_is_an_unknown_error demo_engine
           (ticking_world (Normal tts_ok)) numeric_text_env wav_file
           (VNum 42) (VStr (js "Hi there!"))).
  - reflexivity.
  - eexists; eexists; repeat split.
  - eexists; repeat split.
  - reflexivity.
  - discriminate.
Defined.

(* ================================================================= *)
(** ** More on the error reporter (controller.ts) *)

(** X16. The report of an error that is not a [PipelineError] carries the
    fallback stage; its [error] is the error's message, or "Unknown error
    occurred" when the message is empty, so it is never empty; its
    [details] are the first line of the stack (the text before the first
    line feed), and are absent when there is no stack. *)
Theorem generic_error_report
        (E : Engine) (W : World) (message : jsstring) (stack : option jsstring)
        (fallback : jsstring) (s0 : State) :
  exists s' report,
    handlePipelineError E W (GenericError message stack) fallback s0
      = (s', Normal report) /\
    er_stage report = Some fallback /\
    er_error report <> [] /\
    (message <> [] -> er_error report = message) /\
    (message = [] -> er_error report = js "Unknown error occurred") /\
    match er_details report with
    | None => stack = None \/ stack = Some []
    | Some line =>
        ~ In 10%N line /\
        (stack = Some line \/ exists rest, stack = Some (line ++ 10%N :: rest))
    end.
Proof.
  unfold_reporter. cbv beta iota.
  eexists; eexists. split; [reflexivity|].
  cbn [er_stage er_error er_details].
  split; [reflexivity|]. split; [destruct message; discriminate|].
  split; [destruct message as [|c m]; [intros H; contradiction H; reflexivity | reflexivity]|].
  split; [intros ->; reflexivity|].
  destruct stack as [[|c rest]|]; [right; reflexivity | | left; reflexivity].
  destruct (split_first_piece 10%N (c :: rest)) as (h & Hh & Hnot & Hs).
  rewrite Hh. split; [exact Hnot|].
  destruct Hs as [Hs | (r & Hs)]; [left | right; exists r]; rewrite Hs at 1; reflexivity.
Qed.

Example first_line_of_stack :
  exists s' report,
    handlePipelineError demo_engine same_millisecond_world
      (GenericError (js "")
         (Some (js "Error: boom" ++ [10%N] ++ js "    at run (controller.ts:42)")))
      (js "llama") initial_state = (s', Normal report) /\
    er_error report = js "Unknown error occurred" /\
    er_details report = Some (js "Error: boom").
Proof.
  eexists; eexists. split; [vm_compute; reflexivity|]. split; reflexivity.
Qed.

Lemma js_injective (a b : string) : js a = js b -> a = b.
Proof.
  unfold js. intros H.
  apply (f_equal (map ascii_of_N)) in H. rewrite !map_map in H.
  rewrite !(map_ext _ (fun x => x) ascii_N_embedding), !map_id in H.
  apply (f_equal string_of_list_ascii) in H.
  rewrite !string_of_list_ascii_of_string in H. exact H.
Qed.

Lemma Number_toString_injective (a b : Z) :
  Number_toString a = Number_toString b -> a = b.
Proof.
  unfold Number_toString. intros H. apply js_injective in H.
  assert (Hi : Z.to_int a = Z.to_int b).
  { pose proof (NilEmpty.isi (Z.to_int a)) as Ha.
    pose proof (NilEmpty.isi (Z.to_int b)) as Hb.
    rewrite H in Ha. congruence. }
  rewrite <- (DecimalZ.of_to a), <- (DecimalZ.of_to b), Hi. reflexivity.
Qed.

Lemma uint_string_has_no_underscore (d : Decimal.uint) :
  ~ In 95%N (js (NilEmpty.string_of_uint d)).
Proof.
  induction d; simpl; intros H; try (destruct H as [H|H]; [discriminate H | exact (IHd H)]).
  exact H.
Qed.

Lemma Number_toString_has_no_underscore (n : Z) : ~ In 95%N (Number_toString n).
Proof.
  unfold Number_toString. destruct (Z.to_int n) as [d|d]; simpl.
  - apply uint_string_has_no_underscore.
  - intros [H|H]; [discriminate H | exact (uint_string_has_no_underscore d H)].
Qed.

Lemma app_sep_injective (c : N) (x y s1 s2 : jsstring) :
  ~ In c x -> ~ In c y ->
  x ++ c :: s1 = y ++ c :: s2 -> x = y /\ s1 = s2.
Proof.
  revert y. induction x as [|a x IH]; intros [|b y] Hx Hy H; simpl in H.
  - injection H as ->. split; reflexivity.
  - injection H as -> _. exfalso. apply Hy. left. reflexivity.
  - injection H as -> _. exfalso. apply Hx. left. reflexivity.
  - injection H as -> H.
    destruct (IH y) as [-> ->]; [| | exact H | split; reflexivity].
    + intros Hin. apply Hx. right. exact Hin.
    + intros Hin. apply Hy. right. exact Hin.
Qed.

(** The id built from a clock reading and a random draw determines both the
    reading and the part of the draw it keeps. *)
Lemma requestId_injective (now1 now2 : Z) (r1 r2 : jsstring) :
  js "req_" ++ Number_toString now1 ++ js "_" ++ substr 2 9 r1 =
  js "req_" ++ Number_toString now2 ++ js "_" ++ substr 2 9 r2 ->
  now1 = now2 /\ substr 2 9 r1 = substr 2 9 r2.
Proof.
  intros H. apply app_inv_head in H.
  change (js "_" ++ substr 2 9 r1) with (95%N :: substr 2 9 r1) in H.
  change (js "_" ++ substr 2 9 r2) with (95%N :: substr 2 9 r2) in H.
  apply app_sep_injective in H; try apply Number_toString_has_no_underscore.
  destruct H as [Hn Hr]. split; [apply Number_toString_injective, Hn | exact Hr].
Qed.

(** X17. Two reports made one after the other get the same [requestId]
    exactly when their calls read the same clock value and keep the same
    nine characters of their random draws: a clock that moved between the
    two calls is enough for the ids to differ. *)
Theorem requestIds_coincide_iff
        (E : Engine) (W : World) (error : ErrorInstance) (stage : jsstring)
        (s0 : State) :
  exists s' first second,
    report_twice E W error stage s0 = (s', Normal (first, second)) /\
    (er_requestId first = er_requestId second <->
     Date_now_at W (1 + clock_reads s0) = Date_now_at W (3 + clock_reads s0) /\
     substr 2 9 (Math_random_at W (random_draws s0)) =
     substr 2 9 (Math_random_at W (1 + random_draws s0))).
Proof.
  unfold_reporter.
  destruct error as [message stack | message stage' details];
    do 3 eexists; (split; [reflexivity|]); cbn [er_requestId]; split.
  - intros H.
    apply (f_equal (fun o => match o with Some x => x | None => [] end)) in H.
    apply requestId_injective, H.
  - intros [H1 H2]. simpl Nat.add in H1, H2. rewrite H1, H2. reflexivity.
  - intros H.
    apply (f_equal (fun o => match o with Some x => x | None => [] end)) in H.
    apply requestId_injective, H.
  - intros [H1 H2]. simpl Nat.add in H1, H2. rewrite H1, H2. reflexivity.
Qed.

(* ================================================================= *)
(** ** The POST /process-voice route (index.ts) *)

Ltac unfold_route :=
  cbv beta iota zeta delta
    [process_voice_route respond_with_audio respond_with_report error_body
     handlePipelineError generateRequestId bind ret throw try_catch lift
     Date_now Math_random_toString36 negb
     clock_reads random_draws pipelineStages calls].

(** X18. Without an audio entry in the form ([null], or an empty string
    field) the route answers 400 "No audio file provided" and the pipeline
    is not started: no outside call is made. *)
Theorem route_without_file
        (E : Engine) (W : World) (P : Platform) (env : Env)
        (entry : FormEntry) (s0 : State) :
  entry = EntryMissing \/ entry = EntryString [] ->
  exists s' body,
    process_voice_route E W P env (Normal entry) s0
      = (s', Normal (JsonResponse 400 body)) /\
    er_error body = js "No audio file provided" /\
    er_stage body = None /\
    calls s' = calls s0.
Proof.
  intros [-> | ->]; unfold_route; eexists; eexists; repeat split.
Qed.

Lemma route_without_file_witness :
  exists s' body,
    process_voice_route demo_engine (ticking_world (Normal tts_ok)) demo_platform
      chat_env (Normal EntryMissing) initial_state
      = (s', Normal (JsonResponse 400 body)) /\
    er_error body = js "No audio file provided" /\
    er_stage body = None /\
    calls s' = calls initial_state.
Proof.
  apply (route_without_file demo_engine (ticking_world (Normal tts_ok))
           demo_platform chat_env EntryMissing initial_state).
  left. reflexivity.
Defined.

(** X19. A file whose declared type does not start with "audio/" is
    answered 400 "Invalid file type: <type>. Expected audio format." before
    the pipeline starts, whatever its name: also a file that
    [validateAudioFile] would accept on its extension. *)
Theorem route_rejects_non_audio_type
        (E : Engine) (W : World) (P : Platform) (env : Env)
        (file : File) (s0 : State) :
  startsWith (file_type file) (js "audio/") = false ->
  exists s' body,
    process_voice_route E W P env (Normal (EntryFile file)) s0
      = (s', Normal (JsonResponse 400 body)) /\
    er_error body = js "Invalid file type: " ++ file_type file
                    ++ js ". Expected audio format." /\
    calls s' = calls s0.
Proof.
  intros Htype. unfold_route. rewrite Htype. cbv beta iota.
  eexists; eexists; repeat split.
Qed.

Lemma route_rejects_non_audio_type_witness :
  valid (validateAudioFile demo_engine untyped_mp3_file) = true /\
  exists s' body,
    process_voice_route demo_engine (ticking_world (Normal tts_ok)) demo_platform
      chat_env (Normal (EntryFile untyped_mp3_file)) initial_state
      = (s', Normal (JsonResponse 400 body)) /\
    er_error body = js "Invalid file type: " ++ file_type untyped_mp3_file
                    ++ js ". Expected audio format." /\
    calls s' = calls initial_state.
Proof.
  split; [reflexivity|].
  apply (route_rejects_non_audio_type demo_engine (ticking_world (Normal tts_ok))
           demo_platform chat_env untyped_mp3_file initial_state).
  reflexivity.
Defined.

(** X20. When the pipeline fails on an audio-typed file, the route answers
    422 and the body names the failure: [error] is the message of the
    [PipelineError], [stage] the name of its stage, [details] its details;
    no further outside call is made. *)
Theorem route_reports_pipeline_failure
        (E : Engine) (W : World) (P : Platform) (env : Env) (file : File)
        (s1 : State) (message : jsstring) (stage : PipelineStage)
        (details : option jsstring) :
  startsWith (file_type file) (js "audio/") = true ->
  run E W env file = (s1, pipeline_error message stage details) ->
  exists s' body,
    process_voice_route E W P env (Normal (EntryFile file)) initial_state
      = (s', Normal (JsonResponse 422 body)) /\
    er_error body = message /\
    er_stage body = Some (stage_name stage) /\
    er_details body = details /\
    er_timestamp body = toISOString E (Date_now_at W (clock_reads s1)) /\
    calls s' = calls s1.
Proof.
  intros Htype Hrun. unfold run, pipeline_error in Hrun.
  unfold_route. rewrite Htype. cbv beta iota. rewrite Hrun. cbv beta iota.
  eexists; eexists; repeat split.
Qed.

Lemma route_reports_pipeline_failure_witness :
  exists s' body,
    process_voice_route demo_engine (ticking_world (Normal tts_500)) demo_platform
      chat_env (Normal (EntryFile wav_file)) initial_state
      = (s', Normal (JsonResponse 422 body)) /\
    er_error body = js "Text-to-speech synthesis failed" /\
    er_stage body = Some (js "hume") /\
    er_details body = Some (js "Hume API error: 500 - Hume TTS service error") /\
    er_timestamp body = js "2023-11-14T22:13:20.009Z" /\
    calls s' =
      calls (fst (run demo_engine (ticking_world (Normal tts_500)) chat_env wav_file)).
Proof.
  apply (route_reports_pipeline_failure demo_engine (ticking_world (Normal tts_500))
           demo_platform chat_env wav_file
           (fst (run demo_engine (ticking_world (Normal tts_500)) chat_env wav_file))
           (js "Text-to-speech synthesis failed") hume
           (Some (js "Hume API error: 500 - Hume TTS service error"))).
  - reflexivity.
  - vm_compute. reflexivity.
Defined.

Lemma invalid_file_run
      (E : Engine) (W : World) (env : Env) (audioFile : File) :
  valid (validateAudioFile E audioFile) = false ->
  exists message,
    vr_error (validateAudioFile E audioFile) = Some message /\
    run E W env audioFile =
      ({| clock_reads := 3; random_draws := 0;
          pipelineStages :=
            [{| sr_stage := validation; sr_success := false;
                sr_durationMs := Date_now_at W 2 - Date_now_at W 1;
                sr_error := Some message |}];
          calls := [] |},
       pipeline_error message validation None).
Proof.
  intros Hvalid.
  destruct (invalid_has_message E audioFile Hvalid) as (c & m & Hmsg).
  unfold pipeline_error. unfold_pipeline. rewrite Hvalid, Hmsg. cbv beta iota.
  eexists. split; reflexivity.
Qed.

(** X21. An audio-typed upload larger than 25 MiB is answered 422, not 400:
    the body carries stage "validation" and the size message, and no
    outside call was made. *)
Theorem route_answers_oversize_audio_with_422
        (E : Engine) (W : World) (P : Platform) (env : Env) (file : File) :
  startsWith (file_type file) (js "audio/") = true ->
  MAX_FILE_SIZE < file_size file ->
  exists s' body,
    process_voice_route E W P env (Normal (EntryFile file)) initial_state
      = (s', Normal (JsonResponse 422 body)) /\
    er_error body = js "File size exceeds maximum allowed size of 25MB" /\
    er_stage body = Some (js "validation") /\
    er_details body = None /\
    calls s' = [].
Proof.
  intros Htype Hbig.
  pose proof (validateAudioFile_oversize_eq E file Hbig) as Hv.
  assert (Hinvalid : valid (validateAudioFile E file) = false)
    by (rewrite Hv; reflexivity).
  destruct (invalid_file_run E W env file Hinvalid) as (message & Hmsg & Hrun).
  rewrite Hv in Hmsg. injection Hmsg as <-.
  unfold run, pipeline_error in Hrun.
  unfold_route. rewrite Htype. cbv beta iota. rewrite Hrun. cbv beta iota.
  eexists; eexists; repeat split.
Qed.

Lemma route_answers_oversize_audio_with_422_witness :
  exists s' body,
    process_voice_route demo_engine (ticking_world (Normal tts_ok)) demo_platform
      chat_env (Normal (EntryFile big_wav_file)) initial_state
      = (s', Normal (JsonResponse 422 body)) /\
    er_error body = js "File size exceeds maximum allowed size of 25MB" /\
    er_stage body = Some (js "validation") /\
    er_details body = None /\
    calls s' = [].
Proof.
  apply (route_answers_oversize_audio_with_422 demo_engine
           (ticking_world (Normal tts_ok)) demo_platform chat_env big_wav_file).
  - reflexivity.
  - reflexivity.
Defined.

(** X22. When the pipeline succeeds and [atob] decodes the audio, the route
    answers 200 with the decoded bytes, content type audio/wav, and the
    headers X-Processing-Time-Ms and X-Transcript-Length in decimal, the
    latter being the length of the transcript; the state is the one the
    pipeline left. *)
Theorem route_returns_decoded_audio
        (E : Engine) (W : World) (P : Platform) (env : Env) (file : File)
        (s1 : State) (result : ProcessedAudioResult) (decoded : jsstring) :
  startsWith (file_type file) (js "audio/") = true ->
  run E W env file = (s1, Normal result) ->
  atob P (audioBase64 result) = inl decoded ->
  exists t,
    transcribes E env file (VStr t) /\
    process_voice_route E W P env (Normal (EntryFile file)) initial_state =
      (s1, Normal (AudioResponse
                     (map (fun c => (c mod 256)%N) decoded)
                     [(js "Content-Type", js "audio/wav");
                      (js "X-Processing-Time-Ms",
                       Number_toString (Date_now_at W 11 - Date_now_at W 0));
                      (js "X-Transcript-Length",
                       Number_toString (Z.of_nat (length t)));
                      (js "X-Pipeline-Stages",
                       JSON_stringify_stages P (pipelineStages s1));
                      (js "Access-Control-Allow-Origin", js "*");
                      (js "Access-Control-Expose-Headers",
                       js "X-Processing-Time-Ms, X-Transcript-Length, X-Pipeline-Stages")])).
Proof.
  intros Htype Hrun Hatob.
  assert (Hshape := run_shape_of E W env file s1 (Normal result) Hrun).
  inversion Hshape as [| | | | | | ? t o ? Hv Htr Hgen Ht Ho Hout Hlog Hlen]; subst.
  assert (Htime : processingTimeMs (metadata result)
                  = Date_now_at W 11 - Date_now_at W 0).
  { revert Hrun. clear. unfold_pipeline. repeat pipeline_step; try discriminate.
    intros Heq. inversion Heq; subst. reflexivity. }
  exists t. split; [exact Htr|].
  unfold run in Hrun.
  unfold_route. rewrite Htype. cbv beta iota. rewrite Hrun. cbv beta iota.
  rewrite Hatob. cbv beta iota. rewrite Hlen. cbv beta iota delta [toString_of].
  unfold audio_headers, to_bytes. rewrite Hlog, Htime. reflexivity.
Qed.

Lemma route_returns_decoded_audio_witness :
  exists t,
    transcribes demo_engine chat_env wav_file (VStr t) /\
    process_voice_route demo_engine (ticking_world (Normal tts_ok)) demo_platform
      chat_env (Normal (EntryFile wav_file)) initial_state =
      (fst (run demo_engine (ticking_world (Normal tts_ok)) chat_env wav_file),
       Normal (AudioResponse
                 (map (fun c => (c mod 256)%N) (js "ABC"))
                 [(js "Content-Type", js "audio/wav");
                  (js "X-Processing-Time-Ms",
                   Number_toString (Date_now_at (ticking_world (Normal tts_ok)) 11
                                    - Date_now_at (ticking_world (Normal tts_ok)) 0));
                  (js "X-Transcript-Length",
                   Number_toString (Z.of_nat (length t)));
                  (js "X-Pipeline-Stages",
                   JSON_stringify_stages demo_platform
                     (pipelineStages
                        (fst (run demo_engine (ticking_world (Normal tts_ok))
                                  chat_env wav_file))));
                  (js "Access-Control-Allow-Origin", js "*");
                  (js "Access-Control-Expose-Headers",
                   js "X-Processing-Time-Ms, X-Transcript-Length, X-Pipeline-Stages")])).
Proof.
  apply (route_returns_decoded_audio demo_engine (ticking_world (Normal tts_ok))
           demo_platform chat_env wav_file
           (fst (run demo_engine (ticking_world (Normal tts_ok)) chat_env wav_file))
           {| audioBase64 := VStr (js "QUJD");
              metadata :=
                {| originalDuration := Some 1;
                   transcriptLength := VNum 11;
                   processingTimeMs := 11;
                   md_pipelineStages :=
                     pipelineStages
                       (fst (run demo_engine (ticking_world (Normal tts_ok))
                                 chat_env wav_file)) |} |}
           (js "ABC")).
  - reflexivity.
  - vm_compute. reflexivity.
  - reflexivity.
Defined.

(** X23. When the pipeline succeeds but [atob] rejects the audio, the route
    answers 500 with stage "unknown"; the body's [error] is the message of
    the decoding error, or "Unknown error occurred" when that is empty. *)
Theorem route_answers_undecodable_audio_with_500
        (E : Engine) (W : World) (P : Platform) (env : Env) (file : File)
        (s1 : State) (result : ProcessedAudioResult)
        (message : jsstring) (stack : option jsstring) :
  startsWith (file_type file) (js "audio/") = true ->
  run E W env file = (s1, Normal result) ->
  atob P (audioBase64 result) = inr (message, stack) ->
  exists s' body,
    process_voice_route E W P env (Normal (EntryFile file)) initial_state
      = (s', Normal (JsonResponse 500 body)) /\
    er_stage body = Some (js "unknown") /\
    er_error body = or_default (Some message) (js "Unknown error occurred") /\
    calls s' = calls s1.
Proof.
  intros Htype Hrun Hatob. unfold run in Hrun.
  unfold_route. rewrite Htype. cbv beta iota. rewrite Hrun. cbv beta iota.
  rewrite Hatob. cbv beta iota.
  eexists; eexists; repeat split.
Qed.

Lemma route_answers_undecodable_audio_with_500_witness :
  exists s' body,
    process_voice_route demo_engine (ticking_world (Normal tts_garbled))
      demo_platform chat_env (Normal (EntryFile wav_file)) initial_state
      = (s', Normal (JsonResponse 500 body)) /\
    er_stage body = Some (js "unknown") /\
    er_error body = or_default (Some (js "Invalid character"))
                               (js "Unknown error occurred") /\
    calls s' =
      calls (fst (run demo_engine (ticking_world (Normal tts_garbled))
                      chat_env wav_file)).
Proof.
  apply (route_answers_undecodable_audio_with_500 demo_engine
           (ticking_world (Normal tts_garbled)) demo_platform chat_env wav_file
           (fst (run demo_engine (ticking_world (Normal tts_garbled)) chat_env wav_file))
           {| audioBase64 := VStr (js "%%%");
              metadata :=
                {| originalDuration := Some 1;
                   transcriptLength := VNum 11;
                   processingTimeMs := 11;
                   md_pipelineStages :=
                     pipelineStages
                       (fst (run demo_engine (ticking_world (Normal tts_garbled))
                                 chat_env wav_file)) |} |}
           (js "Invalid character") None).
  - reflexivity.
  - vm_compute. reflexivity.
  - reflexivity.
Defined.

(** X24. The route never lets an exception escape: whatever the form, the
    services and the platform do, it returns a response, and its status is
    200, 400, 422 or 500. *)
Theorem route_always_answers
        (E : Engine) (W : World) (P : Platform) (env : Env)
        (audio : completion FormEntry) (s0 : State) :
  exists s' response,
    process_voice_route E W P env audio s0 = (s', Normal response) /\
    In (status_of response) [200; 400; 422; 500].
Proof.
  unfold_route.
  destruct audio as [[|[|c s]|file]|t]; cbv beta iota;
    try (eexists; eexists; split; [reflexivity | simpl; auto]).
  destruct (startsWith (file_type file) (js "audio/")); cbv beta iota;
    try (eexists; eexists; split; [reflexivity | simpl; auto]).
  destruct (processVoicePipeline E W env file s0) as [s1 [result|t]]; cbv beta iota.
  - destruct (atob P (audioBase64 result)) as [decoded|[message stack]]; cbv beta iota;
      try (eexists; eexists; split; [reflexivity | simpl; auto]).
    destruct (toString_of P (transcriptLength (metadata result))) as [len|t];
      cbv beta iota;
      try (eexists; eexists; split; [reflexivity | simpl; auto]).
    destruct t as [[message stack|message stage details]|v]; cbv beta iota;
      try (eexists; eexists; split; [reflexivity | simpl; auto]).
    destruct (report_non_error P v s1) as [s2 [r|t2]]; cbv beta iota;
      eexists; eexists; split; try reflexivity; simpl; auto.
  - destruct t as [[message stack|message stage details]|v]; cbv beta iota;
      try (eexists; eexists; split; [reflexivity | simpl; auto]).
    destruct (report_non_error P v s1) as [s2 [r|t2]]; cbv beta iota;
      eexists; eexists; split; try reflexivity; simpl; auto.
Qed.

(** X25. A request whose form cannot be read is answered 400 with the
    message of the error (or "Invalid request format" when what was thrown
    is not an [Error]); and a form whose "audio" entry is a non-empty text
    field is answered 400 with the engine's TypeError message for reading
    [startsWith] of [undefined]. *)
Theorem route_answers_malformed_request_with_400
        (E : Engine) (W : World) (P : Platform) (env : Env) (s0 : State) :
  (forall t, exists s' body,
      process_voice_route E W P env (Throw t) s0
        = (s', Normal (JsonResponse 400 body)) /\
      er_error body = match thrown_message t with
                      | Some m => m
                      | None => js "Invalid request format"
                      end /\
      calls s' = calls s0)
  /\
  (forall c s, exists s' body,
      process_voice_route E W P env (Normal (EntryString (c :: s))) s0
        = (s', Normal (JsonResponse 400 body)) /\
      er_error body = TypeError_message E VUndefined (js "startsWith") /\
      calls s' = calls s0).
Proof.
  split.
  - intros t. unfold_route. destruct t; eexists; eexists; repeat split.
  - intros c s. unfold_route. eexists; eexists; repeat split.
Qed.

(* ================================================================= *)
(** ** The git haiku service (git-haiku-mcp) *)

Lemma trimStart_idempotent (s : jsstring) : trimStart (trimStart s) = trimStart s.
Proof.
  induction s as [|c s IH]; simpl; [reflexivity|].
  destruct (isWhiteSpace c) eqn:Hc; [exact IH|].
  simpl. rewrite Hc. reflexivity.
Qed.

Lemma trimEnd_snoc (l : jsstring) (x : N) :
  trimEnd (l ++ [x]) = if isWhiteSpace x then trimEnd l else l ++ [x].
Proof.
  unfold trimEnd. rewrite rev_app_distr. simpl.
  destruct (isWhiteSpace x); [reflexivity|].
  simpl. rewrite rev_involutive. reflexivity.
Qed.

Lemma trimEnd_keeps_text_head (c : N) (r : jsstring) :
  isWhiteSpace c = false -> exists r', trimEnd (c :: r) = c :: r'.
Proof.
  intros Hc. induction r as [|x r IH] using rev_ind.
  - exists []. unfold trimEnd. simpl. rewrite Hc. reflexivity.
  - change (c :: r ++ [x]) with ((c :: r) ++ [x]). rewrite trimEnd_snoc.
    destruct (isWhiteSpace x); [exact IH|]. exists (r ++ [x]). reflexivity.
Qed.

Lemma trimEnd_idempotent (s : jsstring) : trimEnd (trimEnd s) = trimEnd s.
Proof.
  unfold trimEnd. rewrite rev_involutive, trimStart_idempotent. reflexivity.
Qed.

Lemma trim_idempotent (s : jsstring) : trim (trim s) = trim s.
Proof.
  unfold trim.
  assert (Hstart : trimStart (trimEnd (trimStart s)) = trimEnd (trimStart s)).
  { destruct (trimStart s) as [|c r] eqn:Hs; [reflexivity|].
    pose proof (trimStart_starts_with_text _ _ _ Hs) as Hc.
    destruct (trimEnd_keeps_text_head c r Hc) as (r' & ->).
    simpl. rewrite Hc. reflexivity. }
  rewrite Hstart. apply trimEnd_idempotent.
Qed.

Lemma bad_commit_false_iff (c : value) :
  bad_commit c = false <-> exists s, c = VStr s /\ has_text s = true.
Proof.
  unfold bad_commit. split.
  - destruct c; try discriminate.
    destruct (trim s) eqn:Ht; [discriminate|]. intros _.
    exists s. split; [reflexivity|].
    destruct (has_text s) eqn:Hs; [reflexivity|].
    apply trim_nil_iff in Hs. congruence.
  - intros (s & -> & Hs). destruct (trim s) eqn:Ht; [|reflexivity].
    apply trim_nil_iff in Ht. congruence.
Qed.

Lemma validateCommits_characterisation (commits : list value) :
  cv_valid (validateCommits commits) = true <->
  commits <> [] /\
  Forall (fun c => exists s, c = VStr s /\ has_text s = true) commits.
Proof.
  unfold validateCommits. destruct commits as [|c rest].
  - simpl. split; [discriminate | intros [H _]; contradiction H; reflexivity].
  - destruct (existsb bad_commit (c :: rest)) eqn:Hbad; simpl.
    + split; [discriminate|]. intros [_ Hall]. exfalso.
      apply existsb_exists in Hbad. destruct Hbad as (x & Hin & Hx).
      rewrite Forall_forall in Hall. specialize (Hall x Hin).
      apply bad_commit_false_iff in Hall. congruence.
    + split; [|reflexivity]. intros _. split; [discriminate|].
      apply Forall_forall. intros x Hin. apply bad_commit_false_iff.
      destruct (bad_commit x) eqn:Hx; [|reflexivity].
      assert (existsb bad_commit (c :: rest) = true)
        by (apply existsb_exists; exists x; split; assumption).
      congruence.
Qed.

(** X26. [validateCommits] accepts an array exactly when it is not empty
    and each of its elements is a string with a character that is not
    white space. *)
Theorem validateCommits_valid_iff (commits : list value) :
  cv_valid (validateCommits commits) = true <->
  commits <> [] /\
  Forall (fun c => exists s, c = VStr s /\ has_text s = true) commits.
Proof.
  exact (validateCommits_characterisation commits).
Qed.

Lemma validateCommits_accepts_strings (commits : list value) :
  cv_valid (validateCommits commits) = true ->
  Forall (fun c => exists s, c = VStr s /\ has_text s = true) commits.
Proof.
  intros H. apply validateCommits_characterisation in H. exact (proj2 H).
Qed.

Lemma invalid_commits_message (commits : list value) :
  cv_valid (validateCommits commits) = false ->
  cv_error (validateCommits commits) = Some (js "Commits array cannot be empty") /\ commits = [] \/
  cv_error (validateCommits commits) = Some (js "All commit messages must be non-empty strings")
  /\ commits <> [].
Proof.
  unfold validateCommits. destruct commits as [|c rest].
  - intros _. left. split; reflexivity.
  - destruct (existsb bad_commit (c :: rest)); simpl; [|discriminate].
    intros _. right. split; [reflexivity | discriminate].
Qed.

(** On accepted commits [commit_strings] loses nothing. *)
Lemma commit_strings_of_valid (commits : list value) :
  cv_valid (validateCommits commits) = true ->
  map VStr (commit_strings commits) = commits.
Proof.
  intros Hvalid. apply validateCommits_accepts_strings in Hvalid.
  induction Hvalid as [|c rest (s & -> & _) _ IH]; simpl; [reflexivity|].
  rewrite IH. reflexivity.
Qed.

(** X27. On commits that [validateCommits] rejects, [processGitHaiku]
    resolves to "Error: " followed by the validation message and never
    calls the model. *)
Theorem invalid_commits_make_no_call
        (E : Engine) (env : HaikuEnv) (commits : list value) :
  cv_valid (validateCommits commits) = false ->
  exists message,
    cv_error (validateCommits commits) = Some message /\
    processGitHaiku E env commits = (0%nat, js "Error: " ++ message) /\
    (commits = [] -> message = js "Commits array cannot be empty").
Proof.
  intros Hinvalid. unfold processGitHaiku. rewrite Hinvalid. simpl negb. cbv iota.
  destruct (invalid_commits_message commits Hinvalid) as [[Hmsg Hnil] | [Hmsg Hne]];
    rewrite Hmsg; eexists; (split; [reflexivity|]); (split; [reflexivity|]).
  - intros _. reflexivity.
  - intros Hnil. contradiction.
Qed.

Lemma invalid_commits_make_no_call_witness :
  exists message,
    cv_error (validateCommits [VStr (js "fix: typo"); VStr (js "   ")]) = Some message /\
    processGitHaiku demo_engine dead_haiku_env [VStr (js "fix: typo"); VStr (js "   ")]
      = (0%nat, js "Error: " ++ message) /\
    ([VStr (js "fix: typo"); VStr (js "   ")] = [] ->
     message = js "Commits array cannot be empty").
Proof.
  apply (invalid_commits_make_no_call demo_engine dead_haiku_env
           [VStr (js "fix: typo"); VStr (js "   ")]).
  reflexivity.
Defined.

Lemma haiku_loop_bound (E : Engine) (env : HaikuEnv) (prompt : jsstring)
      (maxAttempts fuel attempt : nat) :
  (attempt <= maxAttempts)%nat ->
  (fst (haiku_loop E env prompt maxAttempts attempt fuel) <= maxAttempts)%nat.
Proof.
  revert attempt. induction fuel as [|fuel IH]; intros attempt Hle; simpl; [exact Hle|].
  destruct (Nat.ltb_spec attempt maxAttempts) as [Hlt|Hge]; [|exact Hle].
  destruct (haiku_attempt E env attempt prompt); simpl; [lia|].
  destruct (Nat.leb_spec maxAttempts (S attempt)); simpl; [lia|].
  apply IH. lia.
Qed.

(** X28. Whatever the commits and whatever the model does,
    [processGitHaiku] calls the model at most three times. *)
Theorem haiku_makes_at_most_three_calls
        (E : Engine) (env : HaikuEnv) (commits : list value) :
  (fst (processGitHaiku E env commits) <= 3)%nat.
Proof.
  unfold processGitHaiku.
  destruct (negb (cv_valid (validateCommits commits)));
    [cbn [fst]; lia | apply haiku_loop_bound; lia].
Qed.

Lemma haiku_loop_first_success (E : Engine) (env : HaikuEnv) (prompt : jsstring)
      (maxAttempts : nat) (haiku : jsstring) (k : nat) :
  (k < maxAttempts)%nat ->
  haiku_attempt E env k prompt = Normal haiku ->
  forall fuel attempt,
    (attempt <= k)%nat -> (k - attempt < fuel)%nat ->
    (forall j, (attempt <= j < k)%nat -> exists t, haiku_attempt E env j prompt = Throw t) ->
    haiku_loop E env prompt maxAttempts attempt fuel = (S k, haiku).
Proof.
  intros Hk Hok. induction fuel as [|fuel IH]; intros attempt Hle Hfuel Hfail; [lia|].
  simpl. destruct (Nat.ltb_spec attempt maxAttempts) as [Hlt|Hge]; [|lia].
  destruct (Nat.eq_dec attempt k) as [->|Hne].
  - rewrite Hok. reflexivity.
  - destruct (Hfail attempt ltac:(lia)) as (t & Ht). rewrite Ht.
    destruct (Nat.leb_spec maxAttempts (S attempt)); [lia|].
    apply IH; [lia | lia |]. intros j Hj. apply Hfail. lia.
Qed.

(** X29. With valid commits, if the first [k] attempts fail (the call
    rejects, the response cannot be read, or it is not a string) and
    attempt [k] (counted from 0, [k < 3]) succeeds, [processGitHaiku]
    resolves to that attempt's formatted haiku after exactly [k + 1]
    calls. *)
Theorem haiku_retries_until_first_success
        (E : Engine) (env : HaikuEnv) (commits : list value)
        (k : nat) (haiku : jsstring) :
  cv_valid (validateCommits commits) = true ->
  (k < 3)%nat ->
  (forall j, (j < k)%nat ->
     exists t, haiku_attempt E env j (generateHaikuPrompt (commit_strings commits))
               = Throw t) ->
  haiku_attempt E env k (generateHaikuPrompt (commit_strings commits)) = Normal haiku ->
  processGitHaiku E env commits = (S k, haiku).
Proof.
  intros Hvalid Hk Hfail Hok. unfold processGitHaiku. rewrite Hvalid. simpl negb. cbv iota.
  apply (haiku_loop_first_success E env _ 3 haiku k Hk Hok); [lia | lia |].
  intros j Hj. apply Hfail. lia.
Qed.

Lemma haiku_retries_until_first_success_witness :
  processGitHaiku demo_engine flaky_haiku_env two_commits
    = (3%nat, js "Tests turn green at last").
Proof.
  apply (haiku_retries_until_first_success demo_engine flaky_haiku_env two_commits
           2 (js "Tests turn green at last")).
  - reflexivity.
  - lia.
  - intros j Hj. destruct j as [|[|j]]; [eexists; reflexivity | eexists; reflexivity | lia].
  - reflexivity.
Defined.

Lemma haiku_loop_all_fail (E : Engine) (env : HaikuEnv) (prompt : jsstring)
      (maxAttempts : nat) :
  (forall j, (j < maxAttempts)%nat -> exists t, haiku_attempt E env j prompt = Throw t) ->
  forall fuel attempt,
    (attempt < maxAttempts)%nat -> (maxAttempts - attempt <= fuel)%nat ->
    haiku_loop E env prompt maxAttempts attempt fuel = (maxAttempts, haiku_failure).
Proof.
  intros Hfail. induction fuel as [|fuel IH]; intros attempt Hlt Hfuel; [lia|].
  simpl. destruct (Nat.ltb_spec attempt maxAttempts) as [_|Hge]; [|lia].
  destruct (Hfail attempt Hlt) as (t & Ht). rewrite Ht.
  destruct (Nat.leb_spec maxAttempts (S attempt)) as [Hlast|Hmore].
  - f_equal. lia.
  - apply IH; lia.
Qed.

(** X30. With valid commits, if all three attempts fail,
    [processGitHaiku] resolves (it does not reject) to the fixed failure
    message after exactly three calls. *)
Theorem haiku_gives_up_after_three_failures
        (E : Engine) (env : HaikuEnv) (commits : list value) :
  cv_valid (validateCommits commits) = true ->
  (forall j, (j < 3)%nat ->
     exists t, haiku_attempt E env j (generateHaikuPrompt (commit_strings commits))
               = Throw t) ->
  processGitHaiku E env commits =
    (3%nat,
     js "Error: Failed to generate haiku after multiple attempts. Please try again later.").
Proof.
  intros Hvalid Hfail. unfold processGitHaiku. rewrite Hvalid. simpl negb. cbv iota.
  apply (haiku_loop_all_fail E env _ 3 Hfail); lia.
Qed.

Lemma haiku_gives_up_after_three_failures_witness :
  processGitHaiku demo_engine dead_haiku_env two_commits =
    (3%nat,
     js "Error: Failed to generate haiku after multiple attempts. Please try again later.").
Proof.
  apply (haiku_gives_up_after_three_failures demo_engine dead_haiku_env two_commits).
  - reflexivity.
  - intros j _. eexists. reflexivity.
Defined.
